(** * Alert state analytics: the state-aware marker and its DuckDB appender

    A shallow embedding of [types/state_aware_marker.go] and of the
    DuckDB-backed [StateAppender], together with the properties of the
    decorator's decision tables and of the rows the appender writes.

    Go values are embedded as follows: [model.Fingerprint] (a [uint64]) is
    an [N], and what is proved for every [N] holds below [2^64]; an [int] is
    a [Z]; a [[]string] is a [list string] (a nil slice and an empty slice
    are both [[]], which is all [len] and [slices.Equal] can observe); the
    objects behind the pointers [s.marker], [s.appender], [d.db] and [d.l]
    are threaded explicitly; a call that panics returns the state reached so
    far together with [Panicked]. *)

From stdpp Require Import gmap strings list.
From Stdlib Require Import ZArith NArith Ascii.

Local Open Scope string_scope.
Local Open Scope list_scope.

(** ** Alert identity and status *)

Abbreviation Fingerprint := N (only parsing).

(** Modelled from the spec: [AlertState] is declared in [types.go], outside
    the files verified here. Spec, section 3: a closed enumeration
    [Unprocessed, Active, Suppressed, Deleted]. *)
Inductive AlertState :=
  | AlertStateUnprocessed
  | AlertStateActive
  | AlertStateSuppressed
  | AlertStateDeleted.

#[global] Instance AlertState_eq_dec : EqDecision AlertState.
Proof. solve_decision. Defined.

(** Modelled from the spec: [AlertStatus] is declared in [types.go]. Spec,
    section 3: [State], [InhibitedBy] (an ordered sequence of alert
    identifiers, possibly empty), plus the silence and version metadata owned
    by the Status Authority. *)
Record AlertStatus := mkAlertStatus {
  State : AlertState;
  SilencedBy : list string;
  InhibitedBy : list string;
  pendingSilences : list string;
  silencesVersion : Z;
}.

(** ** Errors and panics *)

Inductive error := errorString (msg : string).

Inductive panic_value :=
  | PanicError (e : error)
  | IndexOutOfRange (index len : nat).

(** How a call without results ends. *)
Inductive completion :=
  | Returned
  | Panicked (v : panic_value).

#[global] Instance error_eq_dec : EqDecision error.
Proof. solve_decision. Defined.
#[global] Instance panic_value_eq_dec : EqDecision panic_value.
Proof. solve_decision. Defined.
#[global] Instance completion_eq_dec : EqDecision completion.
Proof. solve_decision. Defined.

(** ** [slices.Equal] on [[]string] *)

Module slices.
(** Equal lengths and equal elements, position by position. *)
Fixpoint Equal (s1 s2 : list string) : bool :=
  match s1, s2 with
  | [], [] => true
  | v1 :: s1', v2 :: s2' => String.eqb v1 v2 && Equal s1' s2'
  | _, _ => false
  end.
End slices.

(** ** The interfaces *)

(** The [AlertMarker] half of the [marker] interface, as far as the
    decorator's mutating methods use it. [M] is the state of the object
    behind the interface value. *)
Module AlertMarker.
Class t (M : Type) := {
  SetActiveOrSilenced : M → Fingerprint → Z → list string → list string → M;
  SetInhibited : M → Fingerprint → list string → M;
  Status : M → Fingerprint → AlertStatus;
  Delete : M → Fingerprint → M;
  Silenced : M → Fingerprint → list string * list string * Z * bool;
  Inhibited : M → Fingerprint → list string * bool;
}.
End AlertMarker.

(** [StateAppender]: [Append] and [AppendInhibited] have no result, so all a
    caller sees is whether they return. *)
Module StateAppender.
Class t (A : Type) := {
  Append : A → Fingerprint → AlertState → A * completion;
  AppendInhibited : A → Fingerprint → list string → A * completion;
  Close : A → A * option error;
  Flush : A → A * option error;
}.
End StateAppender.

(** ** [StateAwareMarker] *)

Module StateAwareMarker.
Record t (M A : Type) := mk { marker : M; appender : A }.
Arguments mk {M A} _ _.
Arguments marker {M A} _.
Arguments appender {M A} _.

Section methods.
Context {M A : Type} `{!AlertMarker.t M} `{!StateAppender.t A}.

(** The marker has been mutated to [m]; the appender call [r] is the last
    thing the method does. *)
Definition after_append (m : M) (r : A * completion) : t M A * completion :=
  (mk m r.1, r.2).

Definition SetActiveOrSilenced (s : t M A) (alert : Fingerprint) (version : Z)
    (activeSilenceIDs pendingSilenceIDs : list string) : t M A * completion :=
  let currStatus := AlertMarker.Status (marker s) alert in
  let m := AlertMarker.SetActiveOrSilenced (marker s) alert version
             activeSilenceIDs pendingSilenceIDs in
  let '(_, _, _, isSilenced) := AlertMarker.Silenced m alert in
  if isSilenced then
    if negb (bool_decide (State currStatus = AlertStateSuppressed)) then
      after_append m (StateAppender.Append (appender s) alert AlertStateSuppressed)
    else (mk m (appender s), Returned)
  else if bool_decide (State currStatus = AlertStateSuppressed)
          && (0 <? length (InhibitedBy currStatus))%nat then
    (mk m (appender s), Returned)
  else if bool_decide (State currStatus = AlertStateActive) then
    (mk m (appender s), Returned)
  else after_append m (StateAppender.Append (appender s) alert AlertStateActive).

Definition SetInhibited (s : t M A) (alert : Fingerprint)
    (alertIDs : list string) : t M A * completion :=
  let currStatus := AlertMarker.Status (marker s) alert in
  let m := AlertMarker.SetInhibited (marker s) alert alertIDs in
  let '(by_, isInhibited) := AlertMarker.Inhibited m alert in
  if isInhibited then
    if negb (bool_decide (State currStatus = AlertStateSuppressed)) then
      after_append m (StateAppender.AppendInhibited (appender s) alert by_)
    else if negb (slices.Equal (InhibitedBy currStatus) alertIDs) then
      after_append m (StateAppender.AppendInhibited (appender s) alert by_)
    else (mk m (appender s), Returned)
  else if bool_decide (State currStatus = AlertStateSuppressed)
          || bool_decide (State currStatus = AlertStateActive) then
    (mk m (appender s), Returned)
  else after_append m (StateAppender.Append (appender s) alert AlertStateActive).

Definition Status (s : t M A) (alert : Fingerprint) : AlertStatus :=
  AlertMarker.Status (marker s) alert.

Definition Delete (s : t M A) (alert : Fingerprint) : t M A * completion :=
  let currStatus := AlertMarker.Status (marker s) alert in
  let m := AlertMarker.Delete (marker s) alert in
  if bool_decide (State currStatus = AlertStateUnprocessed) then
    (mk m (appender s), Returned)
  else after_append m (StateAppender.Append (appender s) alert AlertStateDeleted).

Definition Silenced (s : t M A) (alert : Fingerprint) :
    list string * list string * Z * bool :=
  AlertMarker.Silenced (marker s) alert.

Definition Inhibited (s : t M A) (alert : Fingerprint) : list string * bool :=
  AlertMarker.Inhibited (marker s) alert.

Definition Flush (s : t M A) : t M A * option error :=
  let r := StateAppender.Flush (appender s) in (mk (marker s) r.1, r.2).
End methods.
End StateAwareMarker.

(** The constructor: [NewStateAwareMarker] wraps the marker that [NewMarker]
    returns; here the caller passes that marker's state. *)
Definition NewStateAwareMarker {M A : Type} (newMarker : M) (appender : A) :
    StateAwareMarker.t M A :=
  StateAwareMarker.mk newMarker appender.

(** ** A recording appender

    The appender of the tests: it keeps the calls it receives, in order. *)

Inductive Call :=
  | CallAppend (fingerprint : Fingerprint) (state : AlertState)
  | CallAppendInhibited (fingerprint : Fingerprint) (inhibitedBy : list string).

#[global] Instance Call_eq_dec : EqDecision Call.
Proof. solve_decision. Defined.

Definition Call_fingerprint (c : Call) : Fingerprint :=
  match c with
  | CallAppend fp _ => fp
  | CallAppendInhibited fp _ => fp
  end.

Module MockStateAppender.
Definition t := list Call.

#[global] Instance appender : StateAppender.t (list Call) := {|
  StateAppender.Append a fp state := (a ++ [CallAppend fp state], Returned);
  StateAppender.AppendInhibited a fp inhibitedBy :=
    (a ++ [CallAppendInhibited fp inhibitedBy], Returned);
  StateAppender.Close a := (a, None);
  StateAppender.Flush a := (a, None);
|}.
End MockStateAppender.

(** ** The libraries the DuckDB appender calls *)

Module uuid.
(** [type UUID [16]byte]. *)
Definition UUID := list Byte.byte.

(** The zero identifier, returned next to an error. *)
Definition Nil : UUID := repeat Byte.x00 16.

(** [Must] returns the identifier when there is no error and panics with the
    error otherwise. *)
Definition Must (r : UUID * option error) : UUID + panic_value :=
  match r.2 with
  | Some err => inr (PanicError err)
  | None => inl r.1
  end.

(** [MarshalBinary] returns [uuid[:], nil]. *)
Definition MarshalBinary (u : UUID) : list Byte.byte * option error := (u, None).
End uuid.

Module model.
Definition hex_digit (d : N) : ascii :=
  nth (N.to_nat d)
    ["0"; "1"; "2"; "3"; "4"; "5"; "6"; "7"; "8"; "9";
     "a"; "b"; "c"; "d"; "e"; "f"]%char "0"%char.

(** The [width] lowest hexadecimal digits of [n], most significant first. *)
Fixpoint hex (width : nat) (n : N) : string :=
  match width with
  | O => EmptyString
  | S width' => hex width' (n / 16)%N +:+ String (hex_digit (n mod 16)%N) EmptyString
  end.

(** [Fingerprint.String]: [fmt.Sprintf("%016x", uint64(f))]. *)
Definition Fingerprint_String (f : Fingerprint) : string := hex 16 f.
End model.

(** Modelled from the spec: [AlertState.String] is declared in [types.go]. The
    persisted enumeration [alert_states] of the schema holds the lower-case
    names. *)
Definition AlertState_String (state : AlertState) : string :=
  match state with
  | AlertStateUnprocessed => "unprocessed"
  | AlertStateActive => "active"
  | AlertStateSuppressed => "suppressed"
  | AlertStateDeleted => "deleted"
  end.

(** A row of table [alert_states] ([analytics/schema.sql]), column by column.
    The two nullable columns are options: [None] is the [nil] argument. *)
Module alert_states.
Record Row := mkRow {
  id : list Byte.byte;
  created_at : Z;
  alert : string;
  state : string;
  suppressed_by : option string;
  suppressed_reason : option string;
}.
End alert_states.

Abbreviation Row := alert_states.Row.
Abbreviation mkRow := alert_states.mkRow.

(** What the world answers during one call of the appender: the result of
    [uuid.NewV7], the clock, and whether the store takes a row, flushes or
    closes. *)
Record World := mkWorld {
  uuid_NewV7 : uuid.UUID * option error;
  time_Now : Z;
  AppendRow_error : Row → option error;
  Flush_error : option error;
  Close_error : option error;
}.

Module duckdb.
(** [duckdb.Appender]: rows wait in the client's buffer until a flush. *)
Record Appender := mkAppender { buffered : list Row; table : list Row }.

Definition AppendRow (w : World) (a : Appender) (row : Row) : Appender * option error :=
  match AppendRow_error w row with
  | Some err => (a, Some err)
  | None => (mkAppender (buffered a ++ [row]) (table a), None)
  end.

Definition Flush (w : World) (a : Appender) : Appender * option error :=
  match Flush_error w with
  | Some err => (a, Some err)
  | None => (mkAppender [] (table a ++ buffered a), None)
  end.

Definition Close (w : World) (a : Appender) : Appender * option error :=
  match Close_error w with
  | Some err => (a, Some err)
  | None => ((Flush w a).1, None)
  end.
End duckdb.

Module slog.
Inductive Level := LevelDebug | LevelInfo | LevelWarn | LevelError.

Record LogRecord := mkLogRecord {
  level : Level;
  msg : string;
  attrs : list (string * error);
}.

(** The logger is the list of the records it has handled. *)
Definition Logger := list LogRecord.

Definition Error (l : Logger) (msg : string) (attrs : list (string * error)) : Logger :=
  l ++ [mkLogRecord LevelError msg attrs].
End slog.

(** [s[i]] on a slice: the element, or the run-time panic. *)
Definition index (s : list string) (i : nat) : string + panic_value :=
  match s !! i with
  | Some v => inl v
  | None => inr (IndexOutOfRange i (length s))
  end.

(** ** [DuckDBStateAppender] *)

Module DuckDBStateAppender.
Record t := mk { db : duckdb.Appender; l : slog.Logger }.

Definition Close (w : World) (d : t) : t * option error :=
  let r := duckdb.Close w (db d) in (mk r.1 (l d), r.2).

Definition Flush (w : World) (d : t) : t * option error :=
  match duckdb.Flush w (db d) with
  | (a, Some (errorString msg)) =>
      (mk a (l d), Some (errorString ("failed to flush duckdb state appender: " +:+ msg)))
  | (a, None) => (mk a (l d), None)
  end.

(** The deferred closure of [Append]: it runs when [Append] returns and
    reads the [err] that the body assigned last. *)
Definition Append_deferred (err : option error) (d : t) : t :=
  match err with
  | Some e => mk (db d) (slog.Error (l d) "failed to append alert state in db" [("error", e)])
  | None => d
  end.

Definition Append (w : World) (d : t) (fingerprint : Fingerprint)
    (state : AlertState) : t * completion :=
  match uuid.Must (uuid_NewV7 w) with
  | inr v => (d, Panicked v)
  | inl id =>
    let '(idBinary, err) := uuid.MarshalBinary id in
    match err with
    | Some _ => (Append_deferred err d, Returned)
    | None =>
      if bool_decide (state = AlertStateSuppressed) then
        let '(a, err) :=
          duckdb.AppendRow w (db d)
            (mkRow idBinary (time_Now w) (model.Fingerprint_String fingerprint)
               (AlertState_String state) None (Some "silenced")) in
        (Append_deferred err (mk a (l d)), Returned)
      else
        let '(a, err) :=
          duckdb.AppendRow w (db d)
            (mkRow idBinary (time_Now w) (model.Fingerprint_String fingerprint)
               (AlertState_String state) None None) in
        (Append_deferred err (mk a (l d)), Returned)
    end
  end.

Definition AppendInhibited (w : World) (d : t) (fingerprint : Fingerprint)
    (inhibitedBy : list string) : t * completion :=
  match uuid.Must (uuid_NewV7 w) with
  | inr v => (d, Panicked v)
  | inl id =>
    let '(idBinary, err) := uuid.MarshalBinary id in
    match err with
    | Some _ => (d, Returned)
    | None =>
      match index inhibitedBy 0 with
      | inr v => (d, Panicked v)
      | inl inhibitedBy0 =>
        let '(a, err) :=
          duckdb.AppendRow w (db d)
            (mkRow idBinary (time_Now w) (model.Fingerprint_String fingerprint)
               (AlertState_String AlertStateSuppressed) (Some inhibitedBy0)
               (Some "inhibited")) in
        match err with
        | Some e =>
            (mk a (slog.Error (l d) "failed to append inhibited alert state in db"
                     [("error", e)]), Returned)
        | None => (mk a (l d), Returned)
        end
      end
    end
  end.

(** The appender as the decorator sees it, in a world [w]. *)
Definition appender (w : World) : StateAppender.t t := {|
  StateAppender.Append := Append w;
  StateAppender.AppendInhibited := AppendInhibited w;
  StateAppender.Close := Close w;
  StateAppender.Flush := Flush w;
|}.
End DuckDBStateAppender.

(** ** The Status Authority *)

(** Modelled from the spec: the Status Authority that [NewMarker] creates
    ([MemMarker], declared in [types.go], outside the files verified here).
    The spec gives its interface (section 6) and what the decorator and the
    tests observe of it:
    - a fingerprint never observed, or deleted, has status [Unprocessed] with
      empty lists (section 8; a second [Delete] appends nothing);
    - [SetActiveOrSilenced] and [SetInhibited] create the alert when it does
      not exist yet (section 4.1, the authority's default outcome) and store
      the silences, the version and the inhibitors they are given;
    - an alert with neither an active silence nor an inhibitor is [Active],
      any other one is [Suppressed] (section 4.1: an alert that is neither
      silenced nor inhibited transitions to active; an alert whose silence
      ends remains suppressed via inhibition);
    - [Silenced] and [Inhibited] are derived from the status: suppressed with
      an active silence, respectively with an inhibitor;
    - pending silences are metadata (section 3): a silence suppresses during
      its time window (glossary), which for a pending one has not begun. *)
Module MemMarker.
Record t := mk { alerts : gmap Fingerprint AlertStatus }.

Definition NewMarker : t := mk ∅.

(** The status a mutator starts from when the alert is not in the map; its
    state is overwritten before the mutator returns. *)
Definition new_status : AlertStatus := mkAlertStatus AlertStateUnprocessed [] [] [] 0.

Definition SetActiveOrSilenced (m : t) (alert : Fingerprint) (version : Z)
    (activeIDs pendingIDs : list string) : t :=
  let s := default new_status (alerts m !! alert) in
  let state :=
    if (length activeIDs =? 0)%nat && (length (InhibitedBy s) =? 0)%nat
    then AlertStateActive else AlertStateSuppressed in
  mk (<[alert := mkAlertStatus state activeIDs (InhibitedBy s) pendingIDs version]>
        (alerts m)).

Definition SetInhibited (m : t) (alert : Fingerprint) (ids : list string) : t :=
  let s := default new_status (alerts m !! alert) in
  let state :=
    if (length ids =? 0)%nat && (length (SilencedBy s) =? 0)%nat
    then AlertStateActive else AlertStateSuppressed in
  mk (<[alert := mkAlertStatus state (SilencedBy s) ids (pendingSilences s)
                   (silencesVersion s)]> (alerts m)).

Definition Status (m : t) (alert : Fingerprint) : AlertStatus :=
  default (mkAlertStatus AlertStateUnprocessed [] [] [] 0) (alerts m !! alert).

Definition Delete (m : t) (alert : Fingerprint) : t :=
  mk (delete alert (alerts m)).

Definition Silenced (m : t) (alert : Fingerprint) :
    list string * list string * Z * bool :=
  let s := Status m alert in
  (SilencedBy s, pendingSilences s, silencesVersion s,
   bool_decide (State s = AlertStateSuppressed) && (0 <? length (SilencedBy s))%nat).

Definition Inhibited (m : t) (alert : Fingerprint) : list string * bool :=
  let s := Status m alert in
  (InhibitedBy s,
   bool_decide (State s = AlertStateSuppressed) && (0 <? length (InhibitedBy s))%nat).

#[global] Instance marker : AlertMarker.t t := {|
  AlertMarker.SetActiveOrSilenced := SetActiveOrSilenced;
  AlertMarker.SetInhibited := SetInhibited;
  AlertMarker.Status := Status;
  AlertMarker.Delete := Delete;
  AlertMarker.Silenced := Silenced;
  AlertMarker.Inhibited := Inhibited;
|}.
End MemMarker.

(** ** Sequences of mutating calls *)

Inductive Op :=
  | OpSetActiveOrSilenced (alert : Fingerprint) (version : Z)
      (activeSilenceIDs pendingSilenceIDs : list string)
  | OpSetInhibited (alert : Fingerprint) (alertIDs : list string)
  | OpDelete (alert : Fingerprint).

#[global] Instance Op_eq_dec : EqDecision Op.
Proof. solve_decision. Defined.

Definition Op_fingerprint (op : Op) : Fingerprint :=
  match op with
  | OpSetActiveOrSilenced alert _ _ _ => alert
  | OpSetInhibited alert _ => alert
  | OpDelete alert => alert
  end.

Section calls.
Context {M A : Type} `{!AlertMarker.t M} `{!StateAppender.t A}.

Definition call (s : StateAwareMarker.t M A) (op : Op) :
    StateAwareMarker.t M A * completion :=
  match op with
  | OpSetActiveOrSilenced alert version activeSilenceIDs pendingSilenceIDs =>
      StateAwareMarker.SetActiveOrSilenced s alert version
        activeSilenceIDs pendingSilenceIDs
  | OpSetInhibited alert alertIDs => StateAwareMarker.SetInhibited s alert alertIDs
  | OpDelete alert => StateAwareMarker.Delete s alert
  end.

(** The calls of [ops] one after the other; a panic ends the run. *)
Fixpoint run (s : StateAwareMarker.t M A) (ops : list Op) :
    StateAwareMarker.t M A * completion :=
  match ops with
  | [] => (s, Returned)
  | op :: ops' =>
      match call s op with
      | (s', Returned) => run s' ops'
      | (s', Panicked v) => (s', Panicked v)
      end
  end.
End calls.

(** What a sequence of calls on a fresh decorator over the Status Authority
    sends to its appender. *)
Definition emitted (ops : list Op) : list Call :=
  StateAwareMarker.appender
    (run (NewStateAwareMarker MemMarker.NewMarker ([] : list Call)) ops).1.

(** The calls an appender received for one fingerprint. *)
Definition for_fingerprint (fp : Fingerprint) (calls : list Call) : list Call :=
  filter (λ c, Call_fingerprint c = fp) calls.

(** A recorded call, made on an appender. *)
Definition deliver {A : Type} `{!StateAppender.t A} (a : A) (c : Call) : A * completion :=
  match c with
  | CallAppend fp state => StateAppender.Append a fp state
  | CallAppendInhibited fp inhibitedBy => StateAppender.AppendInhibited a fp inhibitedBy
  end.

(** A world in which nothing fails. *)
Definition quiet_world : World :=
  mkWorld
    ([Byte.x01; Byte.x93; Byte.x8e; Byte.x5c; Byte.x2a; Byte.x10; Byte.x70; Byte.x00;
      Byte.x80; Byte.x00; Byte.x00; Byte.x00; Byte.x00; Byte.x00; Byte.x00; Byte.x01], None)
    1730000000 (λ _, None) None None.

(** The rows the DuckDB appender writes for a call when nothing fails. *)
Definition written (c : Call) : list Row :=
  duckdb.buffered
    (DuckDBStateAppender.db
       (@deliver _ (DuckDBStateAppender.appender quiet_world)
          (DuckDBStateAppender.mk (duckdb.mkAppender [] []) []) c).1).



(** Two calls are [Append]s of the same state. *)
Definition same_Append (c1 c2 : Call) : bool :=
  match c1, c2 with
  | CallAppend _ state1, CallAppend _ state2 => bool_decide (state1 = state2)
  | _, _ => false
  end.

(** Two calls are the same call, inhibitor list included. *)
Definition same_Call (c1 c2 : Call) : bool := bool_decide (c1 = c2).

(** No two neighbours of [l] are [same]. *)
Fixpoint no_adjacent {X : Type} (same : X → X → bool) (l : list X) : bool :=
  match l with
  | x :: l' =>
      match l' with
      | y :: _ => negb (same x y) && no_adjacent same l'
      | [] => true
      end
  | [] => true
  end.

(** ** One call seen from the recording appender *)

Section recorded.
Context {M : Type} `{!AlertMarker.t M}.

(** The marker after a call, and what the call sends to the appender. *)
Definition next (m : M) (op : Op) : M :=
  StateAwareMarker.marker (call (StateAwareMarker.mk m ([] : list Call)) op).1.

Definition emit (m : M) (op : Op) : list Call :=
  StateAwareMarker.appender (call (StateAwareMarker.mk m ([] : list Call)) op).1.

Fixpoint trace (m : M) (ops : list Op) : list Call :=
  match ops with
  | [] => []
  | op :: ops' => emit m op ++ trace (next m op) ops'
  end.
End recorded.

(** ** The relation between the last event of an alert and its status

    [strict] is set for runs without a [SetInhibited] call that has no
    inhibitors. *)

Definition same (strict : bool) : Call → Call → bool :=
  if strict then same_Call else same_Append.

Definition last_event_inv (strict : bool) (last : option Call)
    (entry : option AlertStatus) : Prop :=
  match last with
  | None | Some (CallAppend _ AlertStateDeleted) => entry = None
  | Some (CallAppend _ AlertStateUnprocessed) => False
  | Some (CallAppend _ AlertStateActive) =>
      ∃ s, entry = Some s ∧ State s = AlertStateActive ∧
           SilencedBy s = [] ∧ InhibitedBy s = []
  | Some (CallAppend _ AlertStateSuppressed) =>
      ∃ s, entry = Some s ∧ State s = AlertStateSuppressed ∧
           SilencedBy s ≠ [] ∧ InhibitedBy s = []
  | Some (CallAppendInhibited _ inhibitedBy) =>
      ∃ s, entry = Some s ∧
           State s = (if (length (SilencedBy s) =? 0)%nat && (length (InhibitedBy s) =? 0)%nat
                      then AlertStateActive else AlertStateSuppressed) ∧
           (strict = true → InhibitedBy s = inhibitedBy ∧ inhibitedBy ≠ [])
  end.

(** The mutation the authority is asked to perform by a call. *)
Definition delegate {M : Type} `{!AlertMarker.t M} (m : M) (op : Op) : M :=
  match op with
  | OpSetActiveOrSilenced alert version activeSilenceIDs pendingSilenceIDs =>
      AlertMarker.SetActiveOrSilenced m alert version activeSilenceIDs pendingSilenceIDs
  | OpSetInhibited alert alertIDs => AlertMarker.SetInhibited m alert alertIDs
  | OpDelete alert => AlertMarker.Delete m alert
  end.

(** A world in which neither an identifier nor a write can be had. *)
Definition failing_world : World :=
  mkWorld (uuid.Nil, Some (errorString "unexpected EOF")) 1730000000
    (λ _, Some (errorString "appender is closed")) None None.

(** A world in which the store refuses every row. *)
Definition closed_store_world : World :=
  mkWorld (uuid_NewV7 quiet_world) 1730000000
    (λ _, Some (errorString "appender is closed")) None None.

(** ** Calls replayed on an appender *)

(** The calls of a list made one after the other; a panic ends them. *)
Fixpoint deliver_all {A : Type} `{!StateAppender.t A} (a : A) (calls : list Call) :
    A * completion :=
  match calls with
  | [] => (a, Returned)
  | c :: calls' =>
      match deliver a c with
      | (a', Returned) => deliver_all a' calls'
      | (a', Panicked v) => (a', Panicked v)
      end
  end.

(** ** Rows the schema accepts

    [suppressed_reason] is null or one of the two values of the schema's
    enumeration; [suppressed_by] is set exactly for an inhibition; a reason
    is only given for a suppressed state. *)
Definition row_consistent (r : Row) : bool :=
  match alert_states.suppressed_reason r, alert_states.suppressed_by r with
  | None, None => true
  | None, Some _ => false
  | Some reason, None =>
      bool_decide (reason = "silenced")
      && bool_decide (alert_states.state r = AlertState_String AlertStateSuppressed)
  | Some reason, Some _ =>
      bool_decide (reason = "inhibited")
      && bool_decide (alert_states.state r = AlertState_String AlertStateSuppressed)
  end.

(** ** The DuckDB appender over time

    Successive calls meet successive worlds: the [n]-th call on the appender
    gets the identifier, the time and the store's answer of world [n]. *)
Module DuckDBSession.
Record t := mk {
  sink : DuckDBStateAppender.t;
  worlds : nat → World;
  calls_made : nat;
}.

Definition now (a : t) : World := worlds a (calls_made a).

Definition step {R : Type} (a : t) (r : DuckDBStateAppender.t * R) : t * R :=
  (mk r.1 (worlds a) (S (calls_made a)), r.2).

#[global] Instance appender : StateAppender.t t := {|
  StateAppender.Append a fp state_ :=
    step a (DuckDBStateAppender.Append (now a) (sink a) fp state_);
  StateAppender.AppendInhibited a fp inhibitedBy :=
    step a (DuckDBStateAppender.AppendInhibited (now a) (sink a) fp inhibitedBy);
  StateAppender.Close a := step a (DuckDBStateAppender.Close (now a) (sink a));
  StateAppender.Flush a := step a (DuckDBStateAppender.Flush (now a) (sink a));
|}.

Definition rows (a : t) : list Row := duckdb.buffered (DuckDBStateAppender.db (sink a)).
Definition log (a : t) : slog.Logger := DuckDBStateAppender.l (sink a).
End DuckDBSession.

(** The columns of a row that a call decides: all but [id] and
    [created_at]. *)
Definition payload (r : Row) : string * string * option string * option string :=
  (alert_states.alert r, alert_states.state r,
   alert_states.suppressed_by r, alert_states.suppressed_reason r).

(** Worlds in which nothing fails, one per call: the time advances and
    the identifier with it. *)
Definition quiet_worlds (n : nat) : World :=
  mkWorld
    ([Byte.x01; Byte.x93; Byte.x8e; Byte.x5c; Byte.x2a; Byte.x10; Byte.x70; Byte.x00;
      Byte.x80; Byte.x00; Byte.x00; Byte.x00; Byte.x00; Byte.x00; Byte.x00;
      default Byte.x00 (Byte.of_N (N.of_nat n mod 256))], None)
    (1730000000 + Z.of_nat n) (λ _, None) None None.

(** A decorator over the Status Authority and an empty DuckDB appender in
    those worlds. *)
Definition quiet_system : StateAwareMarker.t MemMarker.t DuckDBSession.t :=
  NewStateAwareMarker MemMarker.NewMarker
    (DuckDBSession.mk (DuckDBStateAppender.mk (duckdb.mkAppender [] []) []) quiet_worlds 0).

(** ** The rows of one alert *)

(** What a call decides of its row. *)
Definition call_payload (c : Call) : string * string * option string * option string :=
  match c with
  | CallAppend fp state_ =>
      (model.Fingerprint_String fp, AlertState_String state_, None,
       if bool_decide (state_ = AlertStateSuppressed) then Some "silenced" else None)
  | CallAppendInhibited fp inhibitedBy =>
      (model.Fingerprint_String fp, AlertState_String AlertStateSuppressed,
       head inhibitedBy, Some "inhibited")
  end.

(** The rows whose [alert] column is the fingerprint. *)
Definition rows_of (fp : Fingerprint) (rows : list Row) : list Row :=
  filter (λ r, alert_states.alert r = model.Fingerprint_String fp) rows.

(** Two rows record the same state, and neither records an inhibition. *)
Definition same_plain_state (r1 r2 : Row) : bool :=
  bool_decide (alert_states.suppressed_by r1 = None)
  && bool_decide (alert_states.suppressed_by r2 = None)
  && bool_decide (alert_states.state r1 = alert_states.state r2).

(** A call the appender can take: its fingerprint is a 64-bit value and an
    inhibition has an inhibitor. *)
Definition sendable (c : Call) : Prop :=
  (Call_fingerprint c < 2 ^ 64)%N ∧ ∀ fp, c ≠ CallAppendInhibited fp [].

(** The row of a call in a world: the world's identifier and time, and
    what the call decides. *)
Definition call_row (w : World) (c : Call) : Row :=
  mkRow (uuid_NewV7 w).1 (time_Now w) (call_payload c).1.1.1 (call_payload c).1.1.2
    (call_payload c).1.2 (call_payload c).2.

(** Case analysis on the tests of the decision tables. *)
Ltac case_ifs :=
  repeat match goal with
         | |- context [bool_decide ?P] => destruct (bool_decide P) eqn:?; simpl
         | |- context [slices.Equal ?s1 ?s2] => destruct (slices.Equal s1 s2) eqn:?; simpl
         | |- context [(0 <? ?n)%nat] => destruct (0 <? n)%nat eqn:?; simpl
         | |- context [if ?b then _ else _] => destruct b eqn:?; simpl
         end.

(** * The tests of the repository, replayed on the embedding *)

Example TestStateAwareMarker_Duplicate :
  emitted
    [OpSetActiveOrSilenced 1 1 [] []; OpSetActiveOrSilenced 1 1 [] [];
     OpSetInhibited 1 ["a2"]; OpSetInhibited 1 ["a2"];
     OpSetActiveOrSilenced 1 1 [] []; OpSetActiveOrSilenced 1 1 [] [];
     OpSetInhibited 1 ["a2"]; OpSetInhibited 1 ["a2"];
     OpDelete 1; OpDelete 1]
  = [CallAppend 1 AlertStateActive; CallAppendInhibited 1 ["a2"];
     CallAppend 1 AlertStateDeleted].
Proof. reflexivity. Qed.

Example TestStateAwareMarker_SetInhibited :
  emitted [OpSetInhibited 1 ["a2"]; OpSetInhibited 1 ["a3"]]
  = [CallAppendInhibited 1 ["a2"]; CallAppendInhibited 1 ["a3"]].
Proof. reflexivity. Qed.

Example TestStateAwareMarker_SetInhibited_NoInhibition :
  emitted [OpSetActiveOrSilenced 1 1 ["1"] []; OpSetInhibited 1 []; OpSetInhibited 2 []]
  = [CallAppend 1 AlertStateSuppressed; CallAppend 2 AlertStateActive].
Proof. reflexivity. Qed.

Example TestStateAwareMarker_Count :
  emitted
    [OpSetActiveOrSilenced 1 1 [] []; OpSetActiveOrSilenced 2 1 ["1"] [];
     OpSetActiveOrSilenced 3 1 ["2"] []; OpSetActiveOrSilenced 3 1 [] []]
  = [CallAppend 1 AlertStateActive; CallAppend 2 AlertStateSuppressed;
     CallAppend 3 AlertStateSuppressed; CallAppend 3 AlertStateActive].
Proof. reflexivity. Qed.

(** * The decision tables of the decorator *)

Lemma slices_Equal_true (s1 s2 : list string) : slices.Equal s1 s2 = true ↔ s1 = s2.
Proof.
  revert s2. induction s1 as [|v1 s1 IH]; intros [|v2 s2]; simpl; try (split; congruence).
  rewrite andb_true_iff, String.eqb_eq, IH. split.
  - intros [-> ->]. reflexivity.
  - intros [= -> ->]. split; reflexivity.
Qed.

Lemma slices_Equal_refl (s : list string) : slices.Equal s s = true.
Proof. apply slices_Equal_true. reflexivity. Qed.

Lemma slices_Equal_false (s1 s2 : list string) : slices.Equal s1 s2 = false ↔ s1 ≠ s2.
Proof. rewrite <- slices_Equal_true. destruct (slices.Equal s1 s2); split; congruence. Qed.

Lemma length_pos_nonempty {X : Type} (l : list X) : (0 <? length l)%nat = true ↔ l ≠ [].
Proof. destruct l; cbn; split; intros H; try done. Qed.

Section decision_tables.
Context {M : Type} `{!AlertMarker.t M}.
Implicit Types s : StateAwareMarker.t M (list Call).

Import StateAwareMarker.

(** C4. After [SetActiveOrSilenced] the marker is the authority's; if the
    authority now reports the alert silenced, one [Suppressed] event is
    appended unless the snapshot was already [Suppressed]; if not, nothing
    is appended when the snapshot was [Suppressed] with a non-empty
    [InhibitedBy] or was [Active], and one [Active] event otherwise. *)
Theorem SetActiveOrSilenced_decision s alert version activeSilenceIDs pendingSilenceIDs s' c :
  SetActiveOrSilenced s alert version activeSilenceIDs pendingSilenceIDs = (s', c) →
  c = Returned ∧
  marker s' =
    AlertMarker.SetActiveOrSilenced (marker s) alert version
      activeSilenceIDs pendingSilenceIDs ∧
  ((Silenced s' alert).2 = true →
     (State (Status s alert) ≠ AlertStateSuppressed →
        appender s' = appender s ++ [CallAppend alert AlertStateSuppressed]) ∧
     (State (Status s alert) = AlertStateSuppressed → appender s' = appender s)) ∧
  ((Silenced s' alert).2 = false →
     (State (Status s alert) = AlertStateSuppressed ∧ InhibitedBy (Status s alert) ≠ [] →
        appender s' = appender s) ∧
     (State (Status s alert) = AlertStateActive → appender s' = appender s) ∧
     (¬ (State (Status s alert) = AlertStateSuppressed ∧ InhibitedBy (Status s alert) ≠ []) →
      State (Status s alert) ≠ AlertStateActive →
        appender s' = appender s ++ [CallAppend alert AlertStateActive])).
Proof.
  unfold SetActiveOrSilenced, Silenced, Status, after_append.
  destruct (AlertMarker.Silenced _ alert) as [[[a p] v] isSilenced] eqn:HS.
  rewrite <- (length_pos_nonempty (InhibitedBy _)).
  destruct isSilenced; repeat case_bool_decide; simpl;
    destruct (0 <? length _)%nat eqn:Hlen; simpl;
    intros [= <- <-]; simpl; rewrite HS; simpl;
    repeat split; try reflexivity; try congruence; intros; intuition congruence.
Qed.

(** C7. After [SetInhibited], if the authority reports the alert not
    inhibited, nothing is appended when the snapshot was [Suppressed] or
    [Active], and one [Active] event is appended otherwise. *)
Theorem SetInhibited_not_inhibited_decision s alert alertIDs s' c :
  SetInhibited s alert alertIDs = (s', c) →
  (Inhibited s' alert).2 = false →
  c = Returned ∧
  marker s' = AlertMarker.SetInhibited (marker s) alert alertIDs ∧
  (State (Status s alert) = AlertStateSuppressed ∨
   State (Status s alert) = AlertStateActive →
     appender s' = appender s) ∧
  (State (Status s alert) ≠ AlertStateSuppressed →
   State (Status s alert) ≠ AlertStateActive →
     appender s' = appender s ++ [CallAppend alert AlertStateActive]).
Proof.
  unfold SetInhibited, Inhibited, Status, after_append.
  destruct (AlertMarker.Inhibited _ alert) as [by_ isInhibited] eqn:HI.
  destruct isInhibited.
  - destruct (negb _); [|destruct (negb _)]; intros [= <- <-]; simpl;
      rewrite HI; discriminate.
  - repeat case_bool_decide; simpl; intros [= <- <-] _; simpl;
      repeat split; try reflexivity; intros; intuition congruence.
Qed.

(** C6. [Delete] delegates to the authority and appends one [Deleted] event,
    unless the snapshot was [Unprocessed]: then it appends nothing. *)
Theorem Delete_decision s alert s' c :
  Delete s alert = (s', c) →
  c = Returned ∧
  marker s' = AlertMarker.Delete (marker s) alert ∧
  (State (Status s alert) = AlertStateUnprocessed → appender s' = appender s) ∧
  (State (Status s alert) ≠ AlertStateUnprocessed →
     appender s' = appender s ++ [CallAppend alert AlertStateDeleted]).
Proof.
  unfold Delete, Status, after_append.
  case_bool_decide; simpl; intros [= <- <-]; simpl;
    repeat split; try reflexivity; intros; congruence.
Qed.

(** What [SetInhibited] does when the authority reports the alert
    inhibited: the list it compares with the snapshot is the argument
    [alertIDs], the list it appends is the authority's [by]. *)
Lemma SetInhibited_inhibited s alert alertIDs by_ :
  AlertMarker.Inhibited (AlertMarker.SetInhibited (marker s) alert alertIDs) alert
    = (by_, true) →
  SetInhibited s alert alertIDs =
    (mk (AlertMarker.SetInhibited (marker s) alert alertIDs)
        (appender s ++
           if bool_decide (State (Status s alert) = AlertStateSuppressed)
              && slices.Equal (InhibitedBy (Status s alert)) alertIDs
           then [] else [CallAppendInhibited alert by_]),
     Returned).
Proof.
  unfold SetInhibited, Status, after_append. intros ->.
  case_bool_decide; simpl; [|reflexivity].
  destruct (slices.Equal _ _); simpl; [|reflexivity].
  by rewrite app_nil_r.
Qed.
End decision_tables.

Lemma SetActiveOrSilenced_decision_witness :
  StateAwareMarker.appender
    (StateAwareMarker.SetActiveOrSilenced
       (NewStateAwareMarker MemMarker.NewMarker ([] : list Call)) 2 1 ["1"] []).1
    = [] ++ [CallAppend 2 AlertStateSuppressed].
Proof.
  apply (SetActiveOrSilenced_decision
           (NewStateAwareMarker MemMarker.NewMarker ([] : list Call)) 2 1 ["1"] []
           (StateAwareMarker.SetActiveOrSilenced
              (NewStateAwareMarker MemMarker.NewMarker ([] : list Call)) 2 1 ["1"] []).1
           Returned).
  - vm_compute. reflexivity.
  - vm_compute. reflexivity.
  - vm_compute. intros H. discriminate H.
Defined.

Lemma SetInhibited_not_inhibited_decision_witness :
  StateAwareMarker.appender
    (StateAwareMarker.SetInhibited
       (NewStateAwareMarker MemMarker.NewMarker ([] : list Call)) 2 []).1
    = [] ++ [CallAppend 2 AlertStateActive].
Proof.
  apply (SetInhibited_not_inhibited_decision
           (NewStateAwareMarker MemMarker.NewMarker ([] : list Call)) 2 []
           (StateAwareMarker.SetInhibited
              (NewStateAwareMarker MemMarker.NewMarker ([] : list Call)) 2 []).1
           Returned).
  - vm_compute. reflexivity.
  - vm_compute. reflexivity.
  - vm_compute. intros H. discriminate H.
  - vm_compute. intros H. discriminate H.
Defined.

Lemma Delete_decision_witness :
  StateAwareMarker.appender
    (StateAwareMarker.Delete
       (NewStateAwareMarker (MemMarker.SetInhibited MemMarker.NewMarker 1 ["a2"])
          ([] : list Call)) 1).1
    = [] ++ [CallAppend 1 AlertStateDeleted].
Proof.
  apply (Delete_decision
           (NewStateAwareMarker (MemMarker.SetInhibited MemMarker.NewMarker 1 ["a2"])
              ([] : list Call)) 1
           (StateAwareMarker.Delete
              (NewStateAwareMarker (MemMarker.SetInhibited MemMarker.NewMarker 1 ["a2"])
                 ([] : list Call)) 1).1
           Returned).
  - vm_compute. reflexivity.
  - vm_compute. intros H. discriminate H.
Defined.

(** * Delegation to the authority *)

Section delegation.
Context {M A : Type} `{!AlertMarker.t M} `{!StateAppender.t A}.

(** Every mutating method hands the mutation to the authority unchanged,
    whatever the appender then does. *)
Lemma call_marker (s : StateAwareMarker.t M A) op :
  StateAwareMarker.marker (call s op).1 = delegate (StateAwareMarker.marker s) op.
Proof.
  destruct op; simpl.
  - unfold StateAwareMarker.SetActiveOrSilenced, StateAwareMarker.after_append.
    destruct (AlertMarker.Silenced _ _) as [[[? ?] ?] ?]. by case_ifs.
  - unfold StateAwareMarker.SetInhibited, StateAwareMarker.after_append.
    destruct (AlertMarker.Inhibited _ _) as [? ?]. by case_ifs.
  - unfold StateAwareMarker.Delete, StateAwareMarker.after_append. by case_ifs.
Qed.
End delegation.

(** * Runs against the recording appender *)

Section recorded_runs.
Context {M : Type} `{!AlertMarker.t M}.
Implicit Types s : StateAwareMarker.t M (list Call).

Import StateAwareMarker.

(** The recording appender only grows, and by what [emit] says. *)
Lemma call_recorded s op :
  call s op = (mk (next (marker s) op) (appender s ++ emit (marker s) op), Returned).
Proof.
  destruct s as [m a]. unfold next, emit. destruct op as [alert v act pend|alert ids|alert]; simpl.
  - unfold SetActiveOrSilenced, after_append; simpl.
    destruct (AlertMarker.Silenced _ alert) as [[[? ?] ?] []];
      repeat (destruct (bool_decide _)); simpl;
      try destruct (0 <? length _)%nat; simpl; by rewrite ?app_nil_r.
  - unfold SetInhibited, after_append; simpl.
    destruct (AlertMarker.Inhibited _ alert) as [? []];
      repeat (destruct (bool_decide _)); simpl;
      try destruct (slices.Equal _ _); simpl; by rewrite ?app_nil_r.
  - unfold Delete, after_append; simpl.
    destruct (bool_decide _); simpl; by rewrite ?app_nil_r.
Qed.

Lemma emit_length (m : M) op : (length (emit m op) ≤ 1)%nat.
Proof.
  unfold emit. destruct op as [alert v act pend|alert ids|alert]; simpl.
  - unfold SetActiveOrSilenced, after_append; simpl.
    destruct (AlertMarker.Silenced _ alert) as [[[? ?] ?] []];
      repeat (destruct (bool_decide _)); simpl;
      try destruct (0 <? length _)%nat; simpl; lia.
  - unfold SetInhibited, after_append; simpl.
    destruct (AlertMarker.Inhibited _ alert) as [? []];
      repeat (destruct (bool_decide _)); simpl;
      try destruct (slices.Equal _ _); simpl; lia.
  - unfold Delete, after_append; simpl.
    destruct (bool_decide _); simpl; lia.
Qed.

Lemma run_recorded s ops :
  run s ops = (mk (fold_left next ops (marker s)) (appender s ++ trace (marker s) ops),
               Returned).
Proof.
  revert s. induction ops as [|op ops IH]; intros s; simpl.
  - destruct s. by rewrite app_nil_r.
  - rewrite call_recorded, IH. simpl. by rewrite app_assoc.
Qed.
End recorded_runs.

Lemma emitted_trace ops : emitted ops = trace MemMarker.NewMarker ops.
Proof. unfold emitted, NewStateAwareMarker. by rewrite run_recorded. Qed.

(** * The decorator over the Status Authority *)

Section over_MemMarker.
Import StateAwareMarker.
Implicit Types m : MemMarker.t.

Lemma Silenced_after_SetActiveOrSilenced m alert version activeIDs pendingIDs :
  (AlertMarker.Silenced (AlertMarker.SetActiveOrSilenced m alert version activeIDs pendingIDs)
     alert).2 = (0 <? length activeIDs)%nat.
Proof.
  simpl. unfold MemMarker.Silenced, MemMarker.Status, MemMarker.SetActiveOrSilenced; simpl.
  rewrite lookup_insert_eq; simpl.
  destruct activeIDs; simpl; [apply andb_false_r | reflexivity].
Qed.

Lemma Inhibited_after_SetInhibited m alert ids :
  AlertMarker.Inhibited (AlertMarker.SetInhibited m alert ids) alert
    = (ids, (0 <? length ids)%nat).
Proof.
  simpl. unfold MemMarker.Inhibited, MemMarker.Status, MemMarker.SetInhibited; simpl.
  rewrite lookup_insert_eq; simpl.
  destruct ids; simpl; [by rewrite andb_false_r | reflexivity].
Qed.

Lemma emit_SetActiveOrSilenced m alert version activeIDs pendingIDs :
  emit m (OpSetActiveOrSilenced alert version activeIDs pendingIDs) =
    if (0 <? length activeIDs)%nat then
      if bool_decide (State (MemMarker.Status m alert) = AlertStateSuppressed)
      then [] else [CallAppend alert AlertStateSuppressed]
    else if bool_decide (State (MemMarker.Status m alert) = AlertStateSuppressed)
            && (0 <? length (InhibitedBy (MemMarker.Status m alert)))%nat then []
    else if bool_decide (State (MemMarker.Status m alert) = AlertStateActive) then []
    else [CallAppend alert AlertStateActive].
Proof.
  unfold emit, call, SetActiveOrSilenced, after_append.
  pose proof (Silenced_after_SetActiveOrSilenced m alert version activeIDs pendingIDs) as HS.
  destruct (AlertMarker.Silenced _ alert) as [[[? ?] ?] isSilenced].
  simpl in HS; subst isSilenced. simpl. by case_ifs.
Qed.

Lemma emit_SetInhibited m alert ids :
  emit m (OpSetInhibited alert ids) =
    if (0 <? length ids)%nat then
      if bool_decide (State (MemMarker.Status m alert) = AlertStateSuppressed)
         && slices.Equal (InhibitedBy (MemMarker.Status m alert)) ids
      then [] else [CallAppendInhibited alert ids]
    else if bool_decide (State (MemMarker.Status m alert) = AlertStateSuppressed)
            || bool_decide (State (MemMarker.Status m alert) = AlertStateActive) then []
    else [CallAppend alert AlertStateActive].
Proof.
  unfold emit, call, SetInhibited, after_append.
  rewrite Inhibited_after_SetInhibited. simpl. by case_ifs.
Qed.

Lemma emit_Delete m alert :
  emit m (OpDelete alert) =
    if bool_decide (State (MemMarker.Status m alert) = AlertStateUnprocessed)
    then [] else [CallAppend alert AlertStateDeleted].
Proof.
  unfold emit, call, Delete, after_append; simpl.
  by case_ifs.
Qed.

Lemma next_marker m op :
  next m op =
    match op with
    | OpSetActiveOrSilenced alert version activeIDs pendingIDs =>
        MemMarker.SetActiveOrSilenced m alert version activeIDs pendingIDs
    | OpSetInhibited alert ids => MemMarker.SetInhibited m alert ids
    | OpDelete alert => MemMarker.Delete m alert
    end.
Proof. unfold next. rewrite call_marker. by destruct op. Qed.

Lemma next_other m op fp :
  Op_fingerprint op ≠ fp →
  MemMarker.alerts (next m op) !! fp = MemMarker.alerts m !! fp.
Proof.
  intros Hne. rewrite next_marker. destruct op; simpl in *.
  - by rewrite lookup_insert_ne.
  - by rewrite lookup_insert_ne.
  - by rewrite lookup_delete_ne.
Qed.

Lemma emit_fingerprint m op c : c ∈ emit m op → Call_fingerprint c = Op_fingerprint op.
Proof.
  destruct op; rewrite ?emit_SetActiveOrSilenced, ?emit_SetInhibited, ?emit_Delete;
    case_ifs; intros Hc; try (by apply elem_of_nil in Hc);
    apply list_elem_of_singleton in Hc; by subst c.
Qed.

Lemma for_fingerprint_emit m op fp :
  for_fingerprint fp (emit m op) = if decide (Op_fingerprint op = fp) then emit m op else [].
Proof.
  unfold for_fingerprint. pose proof (emit_fingerprint m op) as Hfp.
  pose proof (emit_length m op) as Hlen.
  destruct (emit m op) as [|c [|]]; simpl in *; [by destruct (decide _)| |lia].
  specialize (Hfp c ltac:(left)).
  rewrite filter_cons, filter_nil. rewrite Hfp. by destruct (decide _).
Qed.

(** One call on the fingerprint of [last]: either it emits nothing and the
    relation between [last] and the entry is kept, or it emits one event,
    which differs from [last] and is related to the new entry. *)
Lemma step_inv strict m op last :
  last_event_inv strict last (MemMarker.alerts m !! Op_fingerprint op) →
  (strict = true → op ≠ OpSetInhibited (Op_fingerprint op) []) →
  match emit m op with
  | [] => last_event_inv strict last (MemMarker.alerts (next m op) !! Op_fingerprint op)
  | [e] => (∀ l, last = Some l → same strict l e = false) ∧
           last_event_inv strict (Some e) (MemMarker.alerts (next m op) !! Op_fingerprint op)
  | _ => False
  end.
Proof.
  intros Hinv Hstrict.
  destruct op as [alert v act pend|alert ids|alert];
    rewrite ?emit_SetActiveOrSilenced, ?emit_SetInhibited, ?emit_Delete, next_marker;
    unfold MemMarker.SetActiveOrSilenced, MemMarker.SetInhibited, MemMarker.Delete,
      MemMarker.Status; simpl in *;
    rewrite ?lookup_insert_eq, ?lookup_delete_eq.
  all: destruct (MemMarker.alerts m !! alert) as [[st sil inh pe ve]|] eqn:E; simpl in *.
  all: destruct last as [[? lst|? lby]|]; [destruct lst|..]; simpl in Hinv.
  all: try done.
  all: destruct strict; simpl in *.
  all: repeat match goal with
              | H : ∃ _, _ |- _ => destruct H
              | H : _ ∧ _ |- _ => destruct H
              | H : true = true → _ |- _ => specialize (H eq_refl)
              end; simplify_eq/=.
  all: try match goal with
           | |- context [slices.Equal ?s1 ?s2] =>
               destruct (slices.Equal s1 s2) eqn:Heq;
               [apply slices_Equal_true in Heq; subst
               |apply slices_Equal_false in Heq]
           end.
  all: try (destruct act as [|a0 act]); try (destruct ids as [|i0 ids]); simpl.
  all: try (destruct sil as [|s0 sil]); try (destruct inh as [|h0 inh]); simpl in *.
  all: try done.
  all: case_ifs.
  all: try done.
  all: unfold same_Call.
  all: repeat split; try done.
  all: try (intros l [= <-]; try reflexivity; case_bool_decide; simplify_eq/=; done).
  all: try (eexists; repeat split; try done; intros; simplify_eq/=; done).
Qed.

(** The events of a fingerprint along a run, [last] being the one before the
    run starts. *)
Lemma trace_no_adjacent strict fp ops m last :
  last_event_inv strict last (MemMarker.alerts m !! fp) →
  (strict = true → OpSetInhibited fp [] ∉ ops) →
  no_adjacent (same strict) (option_list last ++ for_fingerprint fp (trace m ops)) = true.
Proof.
  revert m last. induction ops as [|op ops IH]; intros m last Hinv Hstrict.
  - destruct last; reflexivity.
  - simpl. unfold for_fingerprint in *. rewrite filter_app.
    fold (for_fingerprint fp (emit m op)). rewrite for_fingerprint_emit.
    assert (Hops : strict = true → OpSetInhibited fp [] ∉ ops).
    { intros Hs Hin. apply (Hstrict Hs). by right. }
    destruct (decide (Op_fingerprint op = fp)) as [<-|Hne].
    + pose proof (step_inv strict m op last Hinv) as Hstep.
      destruct (emit m op) as [|e [|]].
      * apply IH; [|done]. apply Hstep. intros Hs Heq. apply (Hstrict Hs). rewrite <- Heq. by left.
      * destruct Hstep as [Hsame Hnext]. { intros Hs Heq. apply (Hstrict Hs). rewrite <- Heq. by left. }
        specialize (IH _ _ Hnext Hops). simpl in IH.
        destruct last as [l|]; simpl; [|done].
        by rewrite (Hsame l eq_refl), IH.
      * destruct Hstep. intros Hs Heq. apply (Hstrict Hs). rewrite <- Heq. by left.
    + simpl. apply IH; [|done]. by rewrite next_other.
Qed.

(** A call repeated right away appends nothing. *)
Lemma emit_repeat m op : emit (next m op) op = [].
Proof.
  destruct op as [alert v act pend|alert ids|alert];
    rewrite ?emit_SetActiveOrSilenced, ?emit_SetInhibited, ?emit_Delete, next_marker;
    unfold MemMarker.SetActiveOrSilenced, MemMarker.SetInhibited, MemMarker.Delete,
      MemMarker.Status; simpl;
    rewrite ?lookup_insert_eq, ?lookup_delete_eq; simpl; [| |done].
  - destruct act; simpl; [|done]. by destruct (InhibitedBy _).
  - rewrite slices_Equal_refl. destruct ids; simpl; [|done]. by destruct (SilencedBy _).
Qed.
End over_MemMarker.

Section authority_claims.
Import StateAwareMarker.
Implicit Types s : StateAwareMarker.t MemMarker.t (list Call).




(** Lifting the inhibition of an alert that no silence covers makes the
    authority report it active, and [SetInhibited] appends nothing for it:
    inhibiting it again by the same alert repeats the previous event. *)
Example reinhibited_after_silent_release :
  emitted [OpSetInhibited 1 ["a2"]; OpSetInhibited 1 []; OpSetInhibited 1 ["a2"]]
    = [CallAppendInhibited 1 ["a2"]; CallAppendInhibited 1 ["a2"]] ∧
  State (MemMarker.Status
           (fold_left next [OpSetInhibited 1 ["a2"]; OpSetInhibited 1 []]
              MemMarker.NewMarker) 1) = AlertStateActive.
Proof. split; vm_compute; reflexivity. Qed.

(** C2. After [SetInhibited], if the authority reports the alert inhibited
    by [by_]: when the snapshot was not [Suppressed], one inhibited
    suppression with [by_] is appended; when it was, one is appended exactly
    when [by_] differs from the snapshot's [InhibitedBy]. *)
Theorem SetInhibited_inhibited_decision s alert alertIDs s' c by_ :
  SetInhibited s alert alertIDs = (s', c) →
  Inhibited s' alert = (by_, true) →
  c = Returned ∧
  (State (Status s alert) ≠ AlertStateSuppressed →
     appender s' = appender s ++ [CallAppendInhibited alert by_]) ∧
  (State (Status s alert) = AlertStateSuppressed →
     (by_ ≠ InhibitedBy (Status s alert) →
        appender s' = appender s ++ [CallAppendInhibited alert by_]) ∧
     (by_ = InhibitedBy (Status s alert) → appender s' = appender s)).
Proof.
  intros Hcall Hinh.
  assert (Hm : marker s' = MemMarker.SetInhibited (marker s) alert alertIDs).
  { pose proof (call_recorded s (OpSetInhibited alert alertIDs)) as Hrec.
    simpl in Hrec. rewrite Hcall in Hrec. injection Hrec as -> _.
    simpl. apply (next_marker _ (OpSetInhibited alert alertIDs)). }
  unfold Inhibited in Hinh. rewrite Hm in Hinh.
  pose proof (Inhibited_after_SetInhibited (marker s) alert alertIDs) as Hby.
  simpl in Hby, Hinh. rewrite Hby in Hinh. injection Hinh as -> Hlen.
  rewrite (SetInhibited_inhibited s alert by_ by_) in Hcall
    by (simpl; rewrite Hby, Hlen; reflexivity).
  injection Hcall as <- <-. unfold Status. simpl.
  split; [reflexivity|]. case_bool_decide; simpl.
  - split; [done|]. intros _.
    destruct (slices.Equal _ _) eqn:Heq.
    + apply slices_Equal_true in Heq. split; [congruence|]. by rewrite app_nil_r.
    + apply slices_Equal_false in Heq. split; [done|congruence].
  - split; [done|]. intros; congruence.
Qed.

Lemma SetInhibited_inhibited_decision_witness :
  appender
    (SetInhibited (mk (MemMarker.SetInhibited MemMarker.NewMarker 1 ["a2"]) []) 1 ["a3"]).1
    = [CallAppendInhibited 1 ["a3"]].
Proof.
  apply (SetInhibited_inhibited_decision
           (mk (MemMarker.SetInhibited MemMarker.NewMarker 1 ["a2"]) []) 1 ["a3"]
           (SetInhibited (mk (MemMarker.SetInhibited MemMarker.NewMarker 1 ["a2"]) []) 1
              ["a3"]).1
           Returned ["a3"]).
  - vm_compute. reflexivity.
  - vm_compute. reflexivity.
  - vm_compute. reflexivity.
  - vm_compute. intros H. discriminate H.
Defined.

(** C3. Calling the same mutating operation twice in a row with the same
    arguments appends at most once across both calls. *)
Theorem repeated_call_appends_at_most_once s (op : Op) :
  ∃ calls : list Call,
    run s [op; op] = (mk (next (next (marker s) op) op) (appender s ++ calls), Returned) ∧
    (length calls ≤ 1)%nat.
Proof.
  exists (emit (marker s) op). split.
  - rewrite run_recorded. simpl. by rewrite emit_repeat, !app_nil_r.
  - apply emit_length.
Qed.

(** C5, as amended. [SetActiveOrSilenced] with a non-empty
    [activeSilenceIDs] on a fingerprint whose status is [Unprocessed]
    appends one [Suppressed] event, whatever [pendingSilenceIDs] is, and the
    same call repeated appends nothing more. *)
Theorem SetActiveOrSilenced_unseen s alert version activeSilenceIDs pendingSilenceIDs :
  State (Status s alert) = AlertStateUnprocessed →
  activeSilenceIDs ≠ [] →
  appender
    (run s [OpSetActiveOrSilenced alert version activeSilenceIDs pendingSilenceIDs]).1
    = appender s ++ [CallAppend alert AlertStateSuppressed] ∧
  appender
    (run s [OpSetActiveOrSilenced alert version activeSilenceIDs pendingSilenceIDs;
            OpSetActiveOrSilenced alert version activeSilenceIDs pendingSilenceIDs]).1
    = appender s ++ [CallAppend alert AlertStateSuppressed].
Proof.
  intros Hunseen Hactive. rewrite !run_recorded. simpl.
  rewrite emit_repeat, !app_nil_r, emit_SetActiveOrSilenced.
  unfold Status in Hunseen. simpl in Hunseen. rewrite Hunseen.
  destruct activeSilenceIDs; [done|]. simpl. done.
Qed.

Lemma SetActiveOrSilenced_unseen_witness :
  appender
    (run (NewStateAwareMarker MemMarker.NewMarker [])
       [OpSetActiveOrSilenced 2 1 ["1"] []; OpSetActiveOrSilenced 2 1 ["1"] []]).1
    = [CallAppend 2 AlertStateSuppressed].
Proof.
  apply (SetActiveOrSilenced_unseen (NewStateAwareMarker MemMarker.NewMarker []) 2 1 ["1"] []).
  - vm_compute. reflexivity.
  - intros H. discriminate H.
Defined.

(** C5 fails as stated: with only pending silences the authority reports
    the alert not silenced, and the event appended is [Active]. *)
Lemma SetActiveOrSilenced_unseen_pending_only :
  State (Status (NewStateAwareMarker MemMarker.NewMarker ([] : list Call)) 2)
    = AlertStateUnprocessed ∧
  ["1"] ≠ ([] : list string) ∧
  appender
    (run (NewStateAwareMarker MemMarker.NewMarker []) [OpSetActiveOrSilenced 2 1 [] ["1"]]).1
    = [CallAppend 2 AlertStateActive] ∧
  appender
    (run (NewStateAwareMarker MemMarker.NewMarker []) [OpSetActiveOrSilenced 2 1 [] ["1"]]).1
    ≠ [CallAppend 2 AlertStateSuppressed].
Proof. repeat split; try (vm_compute; reflexivity); vm_compute; intros H; discriminate H. Qed.
End authority_claims.

(** * The DuckDB appender *)

Section duckdb_appender.
Import DuckDBStateAppender.
Implicit Types (w : World) (d : DuckDBStateAppender.t).

Lemma Append_unfold w d fingerprint state_ :
  Append w d fingerprint state_ =
    match (uuid_NewV7 w).2 with
    | Some err => (d, Panicked (PanicError err))
    | None =>
        let row :=
          mkRow (uuid_NewV7 w).1 (time_Now w) (model.Fingerprint_String fingerprint)
            (AlertState_String state_) None
            (if bool_decide (state_ = AlertStateSuppressed) then Some "silenced" else None) in
        match AppendRow_error w row with
        | Some err =>
            (mk (db d) (l d ++ [slog.mkLogRecord slog.LevelError
                                  "failed to append alert state in db" [("error", err)]]),
             Returned)
        | None => (mk (duckdb.mkAppender (duckdb.buffered (db d) ++ [row])
                         (duckdb.table (db d))) (l d), Returned)
        end
    end.
Proof.
  unfold Append, uuid.Must, uuid.MarshalBinary, duckdb.AppendRow.
  destruct (uuid_NewV7 w) as [u [err|]]; simpl; [done|].
  case_bool_decide; simpl; destruct (AppendRow_error w _); simpl; by destruct d.
Qed.

Lemma AppendInhibited_unfold w d fingerprint inhibitedBy :
  AppendInhibited w d fingerprint inhibitedBy =
    match (uuid_NewV7 w).2 with
    | Some err => (d, Panicked (PanicError err))
    | None =>
        match inhibitedBy with
        | [] => (d, Panicked (IndexOutOfRange 0 0))
        | inhibitedBy0 :: _ =>
            let row :=
              mkRow (uuid_NewV7 w).1 (time_Now w) (model.Fingerprint_String fingerprint)
                "suppressed" (Some inhibitedBy0) (Some "inhibited") in
            match AppendRow_error w row with
            | Some err =>
                (mk (db d)
                    (l d ++ [slog.mkLogRecord slog.LevelError
                               "failed to append inhibited alert state in db"
                               [("error", err)]]),
                 Returned)
            | None => (mk (duckdb.mkAppender (duckdb.buffered (db d) ++ [row])
                             (duckdb.table (db d))) (l d), Returned)
            end
        end
    end.
Proof.
  unfold AppendInhibited, uuid.Must, uuid.MarshalBinary, duckdb.AppendRow, index.
  destruct (uuid_NewV7 w) as [u [err|]]; simpl; [done|].
  destruct inhibitedBy as [|inhibitedBy0 ?]; simpl; [done|].
  destruct (AppendRow_error w _); simpl; by destruct d.
Qed.

(** C8. A write that succeeds (the identifier is there and the store takes
    the row) adds exactly one row, whose columns follow from the call:
    [Append] writes the fingerprint's string and the state's string, leaves
    [suppressed_by] null and sets [suppressed_reason] to "silenced" for
    [Suppressed] and to null for any other state; [AppendInhibited] writes
    state "suppressed", the first inhibitor alone as [suppressed_by] and
    "inhibited" as [suppressed_reason]. Conversely, whenever a call changes
    the store, it is by one row with these columns. *)
Theorem rows_written w d fingerprint state_ first rest :
  (state_ = AlertStateSuppressed →
   (uuid_NewV7 w).2 = None →
   AppendRow_error w
     (mkRow (uuid_NewV7 w).1 (time_Now w) (model.Fingerprint_String fingerprint)
        (AlertState_String state_) None (Some "silenced")) = None →
   Append w d fingerprint state_ =
     (mk (duckdb.mkAppender
            (duckdb.buffered (db d) ++
               [mkRow (uuid_NewV7 w).1 (time_Now w) (model.Fingerprint_String fingerprint)
                  (AlertState_String state_) None (Some "silenced")])
            (duckdb.table (db d))) (l d),
      Returned)) ∧
  (state_ ≠ AlertStateSuppressed →
   (uuid_NewV7 w).2 = None →
   AppendRow_error w
     (mkRow (uuid_NewV7 w).1 (time_Now w) (model.Fingerprint_String fingerprint)
        (AlertState_String state_) None None) = None →
   Append w d fingerprint state_ =
     (mk (duckdb.mkAppender
            (duckdb.buffered (db d) ++
               [mkRow (uuid_NewV7 w).1 (time_Now w) (model.Fingerprint_String fingerprint)
                  (AlertState_String state_) None None])
            (duckdb.table (db d))) (l d),
      Returned)) ∧
  ((uuid_NewV7 w).2 = None →
   AppendRow_error w
     (mkRow (uuid_NewV7 w).1 (time_Now w) (model.Fingerprint_String fingerprint)
        (AlertState_String AlertStateSuppressed) (Some first) (Some "inhibited")) = None →
   AppendInhibited w d fingerprint (first :: rest) =
     (mk (duckdb.mkAppender
            (duckdb.buffered (db d) ++
               [mkRow (uuid_NewV7 w).1 (time_Now w) (model.Fingerprint_String fingerprint)
                  (AlertState_String AlertStateSuppressed) (Some first) (Some "inhibited")])
            (duckdb.table (db d))) (l d),
      Returned)) ∧
  (db (Append w d fingerprint state_).1 ≠ db d →
     ∃ row,
       db (Append w d fingerprint state_).1
         = duckdb.mkAppender (duckdb.buffered (db d) ++ [row]) (duckdb.table (db d)) ∧
       alert_states.alert row = model.Fingerprint_String fingerprint ∧
       alert_states.state row = AlertState_String state_ ∧
       alert_states.suppressed_by row = None ∧
       (state_ = AlertStateSuppressed → alert_states.suppressed_reason row = Some "silenced") ∧
       (state_ ≠ AlertStateSuppressed → alert_states.suppressed_reason row = None)) ∧
  (∀ inhibitedBy,
     db (AppendInhibited w d fingerprint inhibitedBy).1 ≠ db d →
     ∃ row,
       db (AppendInhibited w d fingerprint inhibitedBy).1
         = duckdb.mkAppender (duckdb.buffered (db d) ++ [row]) (duckdb.table (db d)) ∧
       alert_states.alert row = model.Fingerprint_String fingerprint ∧
       alert_states.state row = AlertState_String AlertStateSuppressed ∧
       (∃ first' rest',
          inhibitedBy = first' :: rest' ∧ alert_states.suppressed_by row = Some first') ∧
       alert_states.suppressed_reason row = Some "inhibited").
Proof.
  split_and!.
  - intros -> Hid Hrow. rewrite Append_unfold, Hid. simpl in *. by rewrite Hrow.
  - intros Hst Hid Hrow. rewrite Append_unfold, Hid. simpl.
    rewrite bool_decide_eq_false_2 by done. by rewrite Hrow.
  - intros Hid Hrow. rewrite AppendInhibited_unfold, Hid. simpl in *. by rewrite Hrow.
  - rewrite Append_unfold. destruct (uuid_NewV7 w).2; simpl; [done|].
    destruct (AppendRow_error w _); simpl; [done|]. intros _.
    eexists. split; [reflexivity|]. simpl. repeat split; intros Hs; by case_bool_decide.
  - intros inhibitedBy. rewrite AppendInhibited_unfold.
    destruct (uuid_NewV7 w).2; simpl; [done|].
    destruct inhibitedBy as [|inhibitedBy0 ?]; simpl; [done|].
    destruct (AppendRow_error w _); simpl; [done|]. intros _.
    eexists. split; [reflexivity|]. simpl. repeat split. by eexists _, _.
Qed.

Lemma rows_written_witness :
  Append quiet_world (mk (duckdb.mkAppender [] []) []) 1 AlertStateSuppressed =
    (mk (duckdb.mkAppender
           ([] ++ [mkRow (uuid_NewV7 quiet_world).1 (time_Now quiet_world)
                     (model.Fingerprint_String 1) (AlertState_String AlertStateSuppressed)
                     None (Some "silenced")]) []) [],
     Returned) ∧
  Append quiet_world (mk (duckdb.mkAppender [] []) []) 1 AlertStateDeleted =
    (mk (duckdb.mkAppender
           ([] ++ [mkRow (uuid_NewV7 quiet_world).1 (time_Now quiet_world)
                     (model.Fingerprint_String 1) (AlertState_String AlertStateDeleted)
                     None None]) []) [],
     Returned) ∧
  AppendInhibited quiet_world (mk (duckdb.mkAppender [] []) []) 1 ["a2"; "a3"] =
    (mk (duckdb.mkAppender
           ([] ++ [mkRow (uuid_NewV7 quiet_world).1 (time_Now quiet_world)
                     (model.Fingerprint_String 1) (AlertState_String AlertStateSuppressed)
                     (Some "a2") (Some "inhibited")]) []) [],
     Returned).
Proof.
  split_and!.
  - apply (rows_written quiet_world (mk (duckdb.mkAppender [] []) []) 1
             AlertStateSuppressed "a2" ["a3"]); reflexivity.
  - apply (rows_written quiet_world (mk (duckdb.mkAppender [] []) []) 1
             AlertStateDeleted "a2" ["a3"]); [|reflexivity..].
    intros H. discriminate H.
  - apply (rows_written quiet_world (mk (duckdb.mkAppender [] []) []) 1
             AlertStateSuppressed "a2" ["a3"]); reflexivity.
Defined.

(** C9, as amended. A store-write failure is logged with the error, writes
    no row and lets the call return; a failure of [uuid.NewV7] makes
    [uuid.Must] panic before anything is written or logged. Whatever the
    appender does, the marker the decorator holds afterwards is the one the
    Status Authority produced. *)
Theorem write_failures w d fingerprint state_ first rest :
  (∀ err, (uuid_NewV7 w).2 = Some err →
     Append w d fingerprint state_ = (d, Panicked (PanicError err)) ∧
     AppendInhibited w d fingerprint (first :: rest) = (d, Panicked (PanicError err))) ∧
  (∀ err,
     (uuid_NewV7 w).2 = None →
     AppendRow_error w
       (mkRow (uuid_NewV7 w).1 (time_Now w) (model.Fingerprint_String fingerprint)
          (AlertState_String state_) None
          (if bool_decide (state_ = AlertStateSuppressed) then Some "silenced" else None))
       = Some err →
     Append w d fingerprint state_ =
       (mk (db d) (l d ++ [slog.mkLogRecord slog.LevelError
                             "failed to append alert state in db" [("error", err)]]),
        Returned)) ∧
  (∀ err,
     (uuid_NewV7 w).2 = None →
     AppendRow_error w
       (mkRow (uuid_NewV7 w).1 (time_Now w) (model.Fingerprint_String fingerprint)
          "suppressed" (Some first) (Some "inhibited"))
       = Some err →
     AppendInhibited w d fingerprint (first :: rest) =
       (mk (db d) (l d ++ [slog.mkLogRecord slog.LevelError
                             "failed to append inhibited alert state in db"
                             [("error", err)]]),
        Returned)) ∧
  (∀ (M : Type) (authority : AlertMarker.t M) (m : M) (op : Op),
     StateAwareMarker.marker
       (@call M DuckDBStateAppender.t authority (appender w) (StateAwareMarker.mk m d) op).1
       = delegate m op).
Proof.
  rewrite Append_unfold, AppendInhibited_unfold. split; [|split; [|split]].
  - intros err ->. done.
  - intros err -> Herr. simpl. by rewrite Herr.
  - intros err -> Herr. simpl. by rewrite Herr.
  - intros M authority m op. apply call_marker.
Qed.

Lemma write_failures_witness :
  Append closed_store_world (mk (duckdb.mkAppender [] []) []) 1 AlertStateActive
  = (mk (duckdb.mkAppender [] [])
        [slog.mkLogRecord slog.LevelError "failed to append alert state in db"
           [("error", errorString "appender is closed")]],
     Returned).
Proof.
  apply (write_failures closed_store_world
           (mk (duckdb.mkAppender [] []) []) 1 AlertStateActive "a2" []).
  - reflexivity.
  - reflexivity.
Defined.

(** C9 fails as stated: when [uuid.NewV7] fails, [Append] and
    [AppendInhibited] panic and nothing is logged. *)
Lemma identifier_failure_panics :
  Append failing_world (mk (duckdb.mkAppender [] []) []) 1 AlertStateActive
    = (mk (duckdb.mkAppender [] []) [], Panicked (PanicError (errorString "unexpected EOF"))) ∧
  AppendInhibited failing_world (mk (duckdb.mkAppender [] []) []) 1 ["a2"]
    = (mk (duckdb.mkAppender [] []) [], Panicked (PanicError (errorString "unexpected EOF"))) ∧
  (Append failing_world (mk (duckdb.mkAppender [] []) []) 1 AlertStateActive).2 ≠ Returned.
Proof. repeat split; vm_compute; intros H; discriminate H. Qed.

(** C10. [AppendInhibited] indexes [inhibitedBy[0]] unconditionally: with
    an empty list the call panics, with index out of range once the
    identifier exists, and neither writes nor logs; the index has a value
    exactly for a non-empty list, and then that panic cannot happen. *)
Theorem AppendInhibited_requires_inhibitor w d fingerprint :
  (∃ v, AppendInhibited w d fingerprint [] = (d, Panicked v)) ∧
  ((uuid_NewV7 w).2 = None →
     AppendInhibited w d fingerprint [] = (d, Panicked (IndexOutOfRange 0 0))) ∧
  (∀ inhibitedBy, (∃ v, index inhibitedBy 0 = inl v) ↔ inhibitedBy ≠ []) ∧
  (∀ inhibitedBy i len,
     inhibitedBy ≠ [] →
     (AppendInhibited w d fingerprint inhibitedBy).2 ≠ Panicked (IndexOutOfRange i len)).
Proof.
  split; [|split; [|split]].
  - rewrite AppendInhibited_unfold. destruct (uuid_NewV7 w).2; by eexists.
  - intros Hid. by rewrite AppendInhibited_unfold, Hid.
  - intros inhibitedBy. split.
    + intros [v Hv] ->. discriminate Hv.
    + intros Hne. destruct inhibitedBy; [done|]. by eexists.
  - intros inhibitedBy i len Hne. rewrite AppendInhibited_unfold.
    destruct (uuid_NewV7 w).2; simpl; [done|].
    destruct inhibitedBy; [done|]. simpl. by destruct (AppendRow_error w _).
Qed.

Lemma AppendInhibited_requires_inhibitor_witness :
  AppendInhibited quiet_world (mk (duckdb.mkAppender [] []) []) 1 []
    = (mk (duckdb.mkAppender [] []) [], Panicked (IndexOutOfRange 0 0)).
Proof.
  apply (AppendInhibited_requires_inhibitor quiet_world (mk (duckdb.mkAppender [] []) []) 1).
  reflexivity.
Defined.
End duckdb_appender.

(** * What a call can send, and to any appender *)

Section any_appender.
Context {M A : Type} `{!AlertMarker.t M} `{!StateAppender.t A}.
Import StateAwareMarker.

Lemma deliver_all_app (a : A) (calls1 calls2 : list Call) :
  deliver_all a (calls1 ++ calls2) =
    match deliver_all a calls1 with
    | (a', Returned) => deliver_all a' calls2
    | (a', Panicked v) => (a', Panicked v)
    end.
Proof.
  revert a. induction calls1 as [|c calls1 IH]; intros a; simpl; [done|].
  destruct (deliver a c) as [a' [|v]]; [apply IH|done].
Qed.

(** One call hands to the appender what the recording appender records. *)
Lemma call_deliver (s : StateAwareMarker.t M A) (op : Op) :
  call s op =
    (mk (delegate (marker s) op) (deliver_all (appender s) (emit (marker s) op)).1,
     (deliver_all (appender s) (emit (marker s) op)).2).
Proof.
  destruct s as [m a]. unfold emit.
  destruct op as [alert v act pend|alert ids|alert]; simpl.
  - unfold SetActiveOrSilenced, after_append; simpl.
    destruct (AlertMarker.Silenced _ alert) as [[[? ?] ?] []];
      repeat (destruct (bool_decide _)); simpl;
      try destruct (0 <? length _)%nat; simpl; try done;
      by destruct (StateAppender.Append a alert _) as [? []].
  - unfold SetInhibited, after_append; simpl.
    destruct (AlertMarker.Inhibited _ alert) as [? []];
      repeat (destruct (bool_decide _)); simpl;
      try destruct (slices.Equal _ _); simpl; try done;
      try (by destruct (StateAppender.AppendInhibited a alert _) as [? []]);
      by destruct (StateAppender.Append a alert _) as [? []].
  - unfold Delete, after_append; simpl.
    destruct (bool_decide _); simpl; try done.
    by destruct (StateAppender.Append a alert _) as [? []].
Qed.

(** A run replays its recorded events on the appender. *)
Lemma run_replay (s : StateAwareMarker.t M A) (ops : list Op) :
  (appender (run s ops).1, (run s ops).2)
    = deliver_all (appender s) (trace (marker s) ops) ∧
  ((run s ops).2 = Returned → marker (run s ops).1 = fold_left delegate ops (marker s)).
Proof.
  revert s. induction ops as [|op ops IH]; intros s; simpl; [done|].
  rewrite call_deliver, deliver_all_app.
  assert (Hnext : next (marker s) op = delegate (marker s) op)
    by apply (@call_marker M (list Call) _ _ (mk (marker s) []) op).
  destruct (deliver_all (appender s) (emit (marker s) op)) as [a' [|v]]; simpl.
  - rewrite Hnext. apply (IH (mk (delegate (marker s) op) a')).
  - done.
Qed.

(** X2. Over any appender, a run makes on it exactly the calls the recording
    appender records, in order and up to the first panic; it ends as that
    replay ends, and when it returns the marker went through every
    mutation. *)
Theorem run_deliver (s : StateAwareMarker.t M A) (ops : list Op) :
  appender (run s ops).1 = (deliver_all (appender s) (trace (marker s) ops)).1 ∧
  (run s ops).2 = (deliver_all (appender s) (trace (marker s) ops)).2 ∧
  ((run s ops).2 = Returned → marker (run s ops).1 = fold_left delegate ops (marker s)).
Proof.
  destruct (run_replay s ops) as [Hreplay Hmarker].
  rewrite <- Hreplay. done.
Qed.
End any_appender.

Section events_of_a_call.
Context {M : Type} `{!AlertMarker.t M}.
Import StateAwareMarker.

(** What the one event of a call can be. *)
Lemma emit_shape (m : M) (op : Op) (c : Call) :
  c ∈ emit m op →
  Call_fingerprint c = Op_fingerprint op ∧
  match op, c with
  | OpSetActiveOrSilenced alert _ _ _, CallAppend _ state_ =>
      (state_ = AlertStateSuppressed ∧
       (AlertMarker.Silenced (delegate m op) alert).2 = true) ∨
      (state_ = AlertStateActive ∧
       (AlertMarker.Silenced (delegate m op) alert).2 = false)
  | OpSetInhibited alert _, CallAppend _ state_ =>
      state_ = AlertStateActive ∧
      (AlertMarker.Inhibited (delegate m op) alert).2 = false
  | OpSetInhibited alert _, CallAppendInhibited _ inhibitedBy =>
      AlertMarker.Inhibited (delegate m op) alert = (inhibitedBy, true)
  | OpDelete _, CallAppend _ state_ => state_ = AlertStateDeleted
  | _, _ => False
  end.
Proof.
  unfold emit. destruct op as [alert v act pend|alert ids|alert]; simpl.
  - unfold SetActiveOrSilenced, after_append; simpl.
    destruct (AlertMarker.Silenced _ alert) as [[[? ?] ?] []] eqn:HS;
      repeat (destruct (bool_decide _)); simpl;
      try destruct (0 <? length _)%nat; simpl; intros Hc;
      try (by apply elem_of_nil in Hc);
      apply list_elem_of_singleton in Hc; subst c; simpl; split; auto.
  - unfold SetInhibited, after_append; simpl.
    destruct (AlertMarker.Inhibited _ alert) as [? []] eqn:HI;
      repeat (destruct (bool_decide _)); simpl;
      try destruct (slices.Equal _ _); simpl; intros Hc;
      try (by apply elem_of_nil in Hc);
      apply list_elem_of_singleton in Hc; subst c; simpl; split; auto.
  - unfold Delete, after_append; simpl.
    destruct (bool_decide _); simpl; intros Hc;
      try (by apply elem_of_nil in Hc);
      apply list_elem_of_singleton in Hc; subst c; simpl; split; auto.
Qed.

(** X1. A mutating call sends at most one event, for its own fingerprint:
    [SetActiveOrSilenced] a [Suppressed] one if the authority then reports
    the alert silenced and an [Active] one if not; [SetInhibited] an
    inhibited one carrying the list the authority reports, or an [Active]
    one if the authority reports no inhibition; [Delete] a [Deleted] one.
    No call appends [Unprocessed]. *)
Theorem call_events (m : M) (op : Op) :
  (length (emit m op) ≤ 1)%nat ∧
  ∀ c, c ∈ emit m op →
    Call_fingerprint c = Op_fingerprint op ∧
    match op, c with
    | OpSetActiveOrSilenced alert _ _ _, CallAppend _ state_ =>
        (state_ = AlertStateSuppressed ∧
         (AlertMarker.Silenced (delegate m op) alert).2 = true) ∨
        (state_ = AlertStateActive ∧
         (AlertMarker.Silenced (delegate m op) alert).2 = false)
    | OpSetInhibited alert _, CallAppend _ state_ =>
        state_ = AlertStateActive ∧
        (AlertMarker.Inhibited (delegate m op) alert).2 = false
    | OpSetInhibited alert _, CallAppendInhibited _ inhibitedBy =>
        AlertMarker.Inhibited (delegate m op) alert = (inhibitedBy, true)
    | OpDelete _, CallAppend _ state_ => state_ = AlertStateDeleted
    | _, _ => False
    end.
Proof. split; [apply emit_length|]. intros c. apply emit_shape. Qed.

End events_of_a_call.

Lemma call_events_witness :
  Call_fingerprint (CallAppendInhibited 1 ["a2"]) = 1%N ∧
  AlertMarker.Inhibited (delegate MemMarker.NewMarker (OpSetInhibited 1 ["a2"])) 1
    = (["a2"], true).
Proof.
  refine (proj2 (call_events MemMarker.NewMarker (OpSetInhibited 1 ["a2"]))
            (CallAppendInhibited 1 ["a2"]) _).
  vm_compute. left.
Defined.

(** * The DuckDB appender, call by call *)

Section sink_calls.
Import DuckDBStateAppender.
Implicit Types (w : World) (d : DuckDBStateAppender.t).

(** X3. [Append] returns exactly when [uuid.NewV7] gave an identifier;
    [AppendInhibited] returns exactly when it did and there is a first
    inhibitor. Otherwise they panic. *)
Theorem sink_returns_iff w d fingerprint state_ inhibitedBy :
  ((Append w d fingerprint state_).2 = Returned ↔ (uuid_NewV7 w).2 = None) ∧
  ((AppendInhibited w d fingerprint inhibitedBy).2 = Returned ↔
     (uuid_NewV7 w).2 = None ∧ inhibitedBy ≠ []).
Proof.
  rewrite Append_unfold, AppendInhibited_unfold. split.
  - destruct (uuid_NewV7 w).2; simpl; [done|].
    by destruct (AppendRow_error w _).
  - destruct (uuid_NewV7 w).2; simpl; [split; [done|by intros [? _]]|].
    destruct inhibitedBy; simpl; [split; [done|by intros [_ ?]]|].
    by destruct (AppendRow_error w _).
Qed.

(** What one call does to the appender. *)
Lemma deliver_effect w d (c : Call) :
  duckdb.table (db (@deliver _ (appender w) d c).1) = duckdb.table (db d) ∧
  match (@deliver _ (appender w) d c).2 with
  | Panicked _ => (@deliver _ (appender w) d c).1 = d
  | Returned =>
      (∃ row,
         duckdb.buffered (db (@deliver _ (appender w) d c).1)
           = duckdb.buffered (db d) ++ [row] ∧
         row_consistent row = true ∧
         l (@deliver _ (appender w) d c).1 = l d) ∨
      (∃ msg err,
         db (@deliver _ (appender w) d c).1 = db d ∧
         l (@deliver _ (appender w) d c).1
           = l d ++ [slog.mkLogRecord slog.LevelError msg [("error", err)]])
  end.
Proof.
  destruct c as [fp st|fp inhibitedBy]; simpl.
  - rewrite Append_unfold.
    destruct (uuid_NewV7 w).2; simpl; [done|].
    destruct (AppendRow_error w _); simpl; split; try done.
    + right. by eexists _, _.
    + left. eexists. repeat split. unfold row_consistent. simpl.
      case_bool_decide; simpl; [|done]. subst st. by rewrite !bool_decide_eq_true_2.
  - rewrite AppendInhibited_unfold.
    destruct (uuid_NewV7 w).2; simpl; [done|].
    destruct inhibitedBy; simpl; [done|].
    destruct (AppendRow_error w _); simpl; split; try done.
    + right. by eexists _, _.
    + left. by eexists.
Qed.

(** X4. A call on the appender never touches the flushed table. If it
    panics, nothing changed. If it returns, it tried exactly one row: the
    row of the call (the call's fingerprint, state, [suppressed_by] and
    [suppressed_reason], with the identifier and the time of the world), and
    it did exactly one of two things with it. Either the store took the
    row, which is now the last of the buffer, and nothing was logged; or the
    store refused it with an error, the store is as it was, and one record
    of level Error was logged, with the method's message and that very
    error. No call returns having done neither. *)
Theorem sink_call_effect w d (c : Call) :
  duckdb.table (db (@deliver _ (appender w) d c).1) = duckdb.table (db d) ∧
  match (@deliver _ (appender w) d c).2 with
  | Panicked _ => (@deliver _ (appender w) d c).1 = d
  | Returned =>
      ∃ row,
        payload row = call_payload c ∧
        alert_states.id row = (uuid_NewV7 w).1 ∧
        alert_states.created_at row = time_Now w ∧
        match AppendRow_error w row with
        | None =>
            duckdb.buffered (db (@deliver _ (appender w) d c).1)
              = duckdb.buffered (db d) ++ [row] ∧
            l (@deliver _ (appender w) d c).1 = l d
        | Some err =>
            db (@deliver _ (appender w) d c).1 = db d ∧
            l (@deliver _ (appender w) d c).1
              = l d ++ [slog.mkLogRecord slog.LevelError
                          match c with
                          | CallAppend _ _ => "failed to append alert state in db"
                          | CallAppendInhibited _ _ =>
                              "failed to append inhibited alert state in db"
                          end
                          [("error", err)]]
        end
  end.
Proof.
  destruct c as [fp st|fp inhibitedBy]; simpl.
  - rewrite Append_unfold.
    destruct (uuid_NewV7 w).2; simpl; [done|].
    destruct (AppendRow_error w _) eqn:Hrow; simpl; (split; [done|]);
      match type of Hrow with AppendRow_error w ?row = _ => exists row end;
      (split_and!; [reflexivity..|]); by rewrite Hrow.
  - rewrite AppendInhibited_unfold.
    destruct (uuid_NewV7 w).2; simpl; [done|].
    destruct inhibitedBy as [|first rest]; simpl; [done|].
    destruct (AppendRow_error w _) eqn:Hrow; simpl; (split; [done|]);
      match type of Hrow with AppendRow_error w ?row = _ => exists row end;
      (split_and!; [reflexivity..|]); by rewrite Hrow.
Qed.

(** X5. The rows in the buffer stay consistent with the schema: if every
    buffered row has a null [suppressed_reason] or one of "silenced" and
    "inhibited", has [suppressed_by] set exactly when the reason is
    "inhibited", and has a reason only with the suppressed state, then so
    has every buffered row after a call. *)
Theorem rows_stay_consistent w d (c : Call) :
  Forall (λ r, row_consistent r = true) (duckdb.buffered (db d)) →
  Forall (λ r, row_consistent r = true)
    (duckdb.buffered (db (@deliver _ (appender w) d c).1)).
Proof.
  intros Hrows. destruct (deliver_effect w d c) as [_ Heffect].
  destruct (@deliver _ (appender w) d c).2.
  - destruct Heffect as [(row & -> & Hrow & _)|(msg & err & -> & _)]; [|done].
    apply Forall_app. split; [done|]. by apply Forall_singleton.
  - by rewrite Heffect.
Qed.

Lemma rows_stay_consistent_witness :
  Forall (λ r, row_consistent r = true)
    (duckdb.buffered
       (db (@deliver _ (appender quiet_world)
              (@deliver _ (appender quiet_world) (mk (duckdb.mkAppender [] []) [])
                 (CallAppend 1 AlertStateSuppressed)).1
              (CallAppendInhibited 1 ["a2"; "a3"])).1)).
Proof.
  apply (rows_stay_consistent quiet_world
           (@deliver _ (appender quiet_world) (mk (duckdb.mkAppender [] []) [])
              (CallAppend 1 AlertStateSuppressed)).1
           (CallAppendInhibited 1 ["a2"; "a3"])).
  vm_compute. repeat constructor.
Defined.
End sink_calls.

(** * Runs over the DuckDB appender *)

Section sessions.
Import DuckDBSession.
Implicit Types a : DuckDBSession.t.

Lemma session_deliver a (c : Call) :
  deliver a c =
    step a (@deliver _ (DuckDBStateAppender.appender (now a)) (sink a) c).
Proof. by destruct c. Qed.

(** The payload of the row a call writes does not depend on the world. *)
Lemma deliver_payload (w : World) (d : DuckDBStateAppender.t) (c : Call) :
  (∀ row, AppendRow_error w row = None) →
  (@deliver _ (DuckDBStateAppender.appender w) d c).2 = Returned →
  ∃ row,
    duckdb.buffered (DuckDBStateAppender.db
                       (@deliver _ (DuckDBStateAppender.appender w) d c).1)
      = duckdb.buffered (DuckDBStateAppender.db d) ++ [row] ∧
    DuckDBStateAppender.l (@deliver _ (DuckDBStateAppender.appender w) d c).1
      = DuckDBStateAppender.l d ∧
    payload <$> written c = [payload row].
Proof.
  intros Hrow. unfold written. destruct c as [fp st|fp inhibitedBy]; simpl.
  - rewrite !Append_unfold. destruct (uuid_NewV7 w).2; simpl; [done|].
    rewrite !Hrow. simpl. intros _. by eexists.
  - rewrite !AppendInhibited_unfold. destruct (uuid_NewV7 w).2; simpl; [done|].
    destruct inhibitedBy; simpl; [done|].
    rewrite !Hrow. simpl. intros _. by eexists.
Qed.

(** What a list of calls does to the appender over time. *)
Lemma deliver_all_session a (calls : list Call) :
  worlds (deliver_all a calls).1 = worlds a ∧
  duckdb.table (DuckDBStateAppender.db (sink (deliver_all a calls).1))
    = duckdb.table (DuckDBStateAppender.db (sink a)) ∧
  rows a `prefix_of` rows (deliver_all a calls).1 ∧
  log a `prefix_of` log (deliver_all a calls).1 ∧
  (Forall (λ r, row_consistent r = true) (rows a) →
   Forall (λ r, row_consistent r = true) (rows (deliver_all a calls).1)) ∧
  ((deliver_all a calls).2 = Returned →
   calls_made (deliver_all a calls).1 = (calls_made a + length calls)%nat ∧
   (length (rows (deliver_all a calls).1) + length (log (deliver_all a calls).1)
    = length (rows a) + length (log a) + length calls)%nat).
Proof.
  revert a. induction calls as [|c calls IH]; intros a; simpl.
  - repeat split; try done; lia.
  - rewrite session_deliver. unfold step.
    pose proof (deliver_effect (now a) (sink a) c) as [Htable Heffect].
    destruct (@deliver _ (DuckDBStateAppender.appender (now a)) (sink a) c)
      as [d' [|v]] eqn:Hd; simpl in *.
    + specialize (IH (mk d' (worlds a) (S (calls_made a)))).
      destruct IH as (Hw & Ht & Hrows & Hlog & Hcons & Hret). unfold rows, log in *.
      simpl in *. rewrite Hw, Ht, Htable.
      destruct Heffect as [(row & Hrow & Hrowc & Hl)|(msg & err & Hdb & Hl)].
      * rewrite Hrow, Hl in *. split_and!; try done.
        -- etrans; [|exact Hrows]. by apply prefix_app_r.
        -- intros Hall. apply Hcons, Forall_app. split; [done|]. by apply Forall_singleton.
        -- intros Hr. destruct (Hret Hr) as [-> Hlen].
           rewrite length_app in Hlen. simpl in Hlen. lia.
      * rewrite Hdb, Hl in *. split_and!; try done.
        -- etrans; [|exact Hlog]. by apply prefix_app_r.
        -- intros Hr. destruct (Hret Hr) as [-> Hlen].
           rewrite length_app in Hlen. simpl in Hlen. lia.
    + subst d'. repeat split; try done.
Qed.

(** In a session whose store takes every row, the calls that return each
    add the row of their payload, in order, and nothing is logged. *)
Lemma deliver_all_payload a (calls : list Call) :
  (∀ n row, AppendRow_error (worlds a n) row = None) →
  (deliver_all a calls).2 = Returned →
  ∃ new,
    rows (deliver_all a calls).1 = rows a ++ new ∧
    log (deliver_all a calls).1 = log a ∧
    payload <$> new = calls ≫= (λ c, payload <$> written c).
Proof.
  revert a. induction calls as [|c calls IH]; intros a Hstore; simpl.
  - intros _. exists []. by rewrite app_nil_r.
  - rewrite session_deliver. unfold step.
    pose proof (deliver_payload (now a) (sink a) c (Hstore _)) as Hc.
    destruct (@deliver _ (DuckDBStateAppender.appender (now a)) (sink a) c)
      as [d' [|v]] eqn:Hd; simpl in *; [|done].
    destruct (Hc eq_refl) as (row & Hrow & Hl & Hpayload).
    intros Hret.
    destruct (IH (mk d' (worlds a) (S (calls_made a))) Hstore Hret) as (new & Hnew & Hlog & Hp).
    unfold rows, log in *. simpl in *.
    exists (row :: new). rewrite Hnew, Hrow, Hlog, Hl, <- app_assoc. repeat split.
    rewrite fmap_cons, Hp. by rewrite Hpayload.
Qed.

Context {M : Type} `{!AlertMarker.t M}.
Implicit Types s : StateAwareMarker.t M DuckDBSession.t.
Import StateAwareMarker.

(** X6. A run over the DuckDB appender only appends: it never touches the
    flushed table, the rows buffered and the records logged before it are
    still there, in place, after it, and buffered rows stay consistent with
    the schema. When the run returns, every event it sent was either
    written as a row or logged as an error: rows and log records together
    grew by the number of events. *)
Theorem run_on_session s (ops : list Op) :
  duckdb.table (DuckDBStateAppender.db (sink (appender (run s ops).1)))
    = duckdb.table (DuckDBStateAppender.db (sink (appender s))) ∧
  rows (appender s) `prefix_of` rows (appender (run s ops).1) ∧
  log (appender s) `prefix_of` log (appender (run s ops).1) ∧
  (Forall (λ r, row_consistent r = true) (rows (appender s)) →
   Forall (λ r, row_consistent r = true) (rows (appender (run s ops).1))) ∧
  ((run s ops).2 = Returned →
   (length (rows (appender (run s ops).1)) + length (log (appender (run s ops).1))
    = length (rows (appender s)) + length (log (appender s))
      + length (trace (marker s) ops))%nat).
Proof.
  destruct (run_replay s ops) as [Hreplay _].
  pose proof (deliver_all_session (appender s) (trace (marker s) ops)) as Hs.
  rewrite <- Hreplay in Hs. simpl in Hs.
  destruct Hs as (_ & Ht & Hrows & Hlog & Hcons & Hret).
  split_and!; try done. intros Hr. by destruct (Hret Hr).
Qed.

(** The row a returning call adds when the store takes every row. *)
Lemma deliver_call_row (w : World) (d : DuckDBStateAppender.t) (c : Call) :
  (∀ row, AppendRow_error w row = None) →
  (@deliver _ (DuckDBStateAppender.appender w) d c).2 = Returned →
  duckdb.buffered (DuckDBStateAppender.db
                     (@deliver _ (DuckDBStateAppender.appender w) d c).1)
    = duckdb.buffered (DuckDBStateAppender.db d) ++ [call_row w c] ∧
  DuckDBStateAppender.l (@deliver _ (DuckDBStateAppender.appender w) d c).1
    = DuckDBStateAppender.l d.
Proof.
  intros Hrow. destruct c as [fp st|fp inhibitedBy]; simpl.
  - rewrite Append_unfold. destruct (uuid_NewV7 w).2; simpl; [done|].
    rewrite Hrow. done.
  - rewrite AppendInhibited_unfold. destruct (uuid_NewV7 w).2; simpl; [done|].
    destruct inhibitedBy; simpl; [done|].
    rewrite Hrow. done.
Qed.

Lemma deliver_all_call_rows a (calls : list Call) :
  (∀ n row, AppendRow_error (worlds a n) row = None) →
  (deliver_all a calls).2 = Returned →
  rows (deliver_all a calls).1
    = rows a ++ zip_with call_row (worlds a <$> seq (calls_made a) (length calls)) calls ∧
  log (deliver_all a calls).1 = log a.
Proof.
  revert a. induction calls as [|c calls IH]; intros a Hstore; simpl.
  - intros _. by rewrite app_nil_r.
  - rewrite session_deliver. unfold step.
    pose proof (deliver_call_row (now a) (sink a) c (Hstore _)) as Hc.
    destruct (@deliver _ (DuckDBStateAppender.appender (now a)) (sink a) c)
      as [d' [|v]] eqn:Hd; simpl in *; [|done].
    destruct (Hc eq_refl) as [Hrow Hl]. intros Hret.
    destruct (IH (DuckDBSession.mk d' (worlds a) (S (calls_made a))) Hstore Hret)
      as [Hnew Hlog].
    unfold rows, log in *. simpl in *.
    by rewrite Hnew, Hrow, Hlog, Hl, <- app_assoc.
Qed.

Lemma payload_call_rows (ws : list World) (calls : list Call) :
  length ws = length calls →
  payload <$> zip_with call_row ws calls = call_payload <$> calls.
Proof.
  revert ws. induction calls as [|c calls IH]; intros [|w ws]; simpl; try done.
  intros [= Hlen]. f_equal; [|by apply IH].
  unfold payload, call_row. simpl. by destruct (call_payload c) as [[[? ?] ?] ?].
Qed.

(** X7. When the store takes every row and the run returns, the rows added
    to the buffer are those of the events the run sent, one row per event
    and in the order of the events: the row of the [k]-th event has the
    identifier and the time of the [k]-th world met, the string of the
    event's fingerprint as [alert], the string of its state ("suppressed"
    for an inhibited event), [suppressed_by] null for [Append] and the first
    inhibitor for [AppendInhibited], and [suppressed_reason] "silenced" for
    [Append] of [Suppressed], "inhibited" for [AppendInhibited] and null
    otherwise. Nothing is logged. *)
Theorem rows_follow_events s (ops : list Op) :
  (∀ n row, AppendRow_error (worlds (appender s) n) row = None) →
  (run s ops).2 = Returned →
  rows (appender (run s ops).1)
    = rows (appender s) ++
        zip_with call_row
          (worlds (appender s) <$>
             seq (calls_made (appender s)) (length (trace (marker s) ops)))
          (trace (marker s) ops) ∧
  log (appender (run s ops).1) = log (appender s) ∧
  payload <$> drop (length (rows (appender s))) (rows (appender (run s ops).1))
    = call_payload <$> trace (marker s) ops.
Proof.
  intros Hstore Hr. destruct (run_replay s ops) as [Hreplay _].
  pose proof (deliver_all_call_rows (appender s) (trace (marker s) ops) Hstore) as Hp.
  rewrite <- Hreplay in Hp. simpl in Hp. destruct (Hp Hr) as [Hrows Hlog].
  split_and!; try done.
  rewrite Hrows, drop_app_length. apply payload_call_rows.
  by rewrite length_fmap, length_seq.
Qed.
End sessions.

(** * Panics through the decorator *)

Section panics.
Import DuckDBSession.
Import StateAwareMarker.

Lemma deliver_returns (w : World) (d : DuckDBStateAppender.t) (c : Call) :
  (uuid_NewV7 w).2 = None →
  (∀ fp, c ≠ CallAppendInhibited fp []) →
  (@deliver _ (DuckDBStateAppender.appender w) d c).2 = Returned.
Proof.
  intros Hid Hc. destruct c as [fp st|fp inhibitedBy]; simpl.
  - rewrite Append_unfold, Hid. simpl. by destruct (AppendRow_error w _).
  - rewrite AppendInhibited_unfold, Hid. simpl.
    destruct inhibitedBy; [by destruct (Hc fp)|]. simpl. by destruct (AppendRow_error w _).
Qed.

Lemma deliver_all_returns (a : DuckDBSession.t) (calls : list Call) :
  (∀ n, (uuid_NewV7 (worlds a n)).2 = None) →
  (∀ fp, CallAppendInhibited fp [] ∉ calls) →
  (deliver_all a calls).2 = Returned.
Proof.
  revert a. induction calls as [|c calls IH]; intros a Hid Hcalls; simpl; [done|].
  rewrite session_deliver. unfold step.
  pose proof (deliver_returns (now a) (sink a) c (Hid _)) as Hc.
  destruct (@deliver _ (DuckDBStateAppender.appender (now a)) (sink a) c)
    as [d' [|v]]; simpl in *.
  - apply IH; [done|]. intros fp Hin. apply (Hcalls fp). by right.
  - apply Hc. intros fp ->. apply (Hcalls fp). by left.
Qed.

(** X8. A call over the DuckDB appender returns when [uuid.NewV7] gives an
    identifier and the authority, if it reports the alert inhibited after
    the mutation, reports at least one inhibitor: the decorator then never
    gives [AppendInhibited] an empty list. *)
Theorem call_returns {M : Type} `{!AlertMarker.t M}
    (s : StateAwareMarker.t M DuckDBSession.t) (op : Op) :
  (uuid_NewV7 (now (appender s))).2 = None →
  ((AlertMarker.Inhibited (delegate (marker s) op) (Op_fingerprint op)).2 = true →
   (AlertMarker.Inhibited (delegate (marker s) op) (Op_fingerprint op)).1 ≠ []) →
  (call s op).2 = Returned.
Proof.
  intros Hid Hinh. rewrite call_deliver. simpl.
  pose proof (emit_length (marker s) op) as Hlen.
  pose proof (emit_shape (marker s) op) as Hshape.
  destruct (emit (marker s) op) as [|c [|]]; simpl in *; [done| |lia].
  rewrite session_deliver. unfold step. simpl.
  pose proof (deliver_returns (now (appender s)) (sink (appender s)) c Hid) as Hc.
  destruct (@deliver _ (DuckDBStateAppender.appender (now (appender s)))
              (sink (appender s)) c) as [d' [|v]]; simpl in *; [done|].
  apply Hc. intros fp ->.
  destruct (Hshape (CallAppendInhibited fp []) ltac:(left)) as [_ Hop].
  destruct op; simpl in *; try done.
  rewrite Hop in Hinh. by apply Hinh.
Qed.

Lemma call_returns_witness :
  (call quiet_system (OpSetInhibited 1 ["a2"])).2 = Returned.
Proof.
  apply (call_returns quiet_system (OpSetInhibited 1 ["a2"])).
  - reflexivity.
  - vm_compute. intros _ H. discriminate H.
Defined.

Lemma trace_inhibited_nonempty (m : MemMarker.t) (ops : list Op) (fp : Fingerprint) :
  CallAppendInhibited fp [] ∉ trace m ops.
Proof.
  revert m. induction ops as [|op ops IH]; intros m; simpl.
  - apply not_elem_of_nil.
  - rewrite elem_of_app. intros [Hin|Hin]; [|by apply (IH _ Hin)].
    destruct (emit_shape m op _ Hin) as [_ Hop].
    destruct op as [|alert ids|]; simpl in *; try done.
    pose proof (Inhibited_after_SetInhibited m alert ids) as Hids.
    simpl in Hids. rewrite Hop in Hids. by injection Hids as <- ?.
Qed.

(** X9. Over the Status Authority the decorator never makes the DuckDB
    appender panic on its own account: as long as [uuid.NewV7] gives
    identifiers, every run returns, from any state of the authority. The
    authority reports an inhibition only with its inhibitors, so
    [inhibitedBy[0]] always exists. *)
Theorem run_returns (s : StateAwareMarker.t MemMarker.t DuckDBSession.t) (ops : list Op) :
  (∀ n, (uuid_NewV7 (worlds (appender s) n)).2 = None) →
  (run s ops).2 = Returned.
Proof.
  intros Hid. destruct (run_replay s ops) as [Hreplay _].
  pose proof (deliver_all_returns (appender s) (trace (marker s) ops) Hid
                (trace_inhibited_nonempty (marker s) ops)) as Hr.
  by rewrite <- Hreplay in Hr.
Qed.

Lemma run_returns_witness :
  (run quiet_system
     [OpSetActiveOrSilenced 1 1 ["1"] []; OpSetInhibited 1 ["a2"]; OpSetInhibited 1 [];
      OpDelete 1]).2 = Returned.
Proof.
  apply (run_returns quiet_system).
  intros n. reflexivity.
Defined.
End panics.

(** * The fingerprint column *)

Section fingerprint_key.
Local Open Scope N_scope.

Lemma string_length_app (s1 s2 : string) :
  String.length (s1 +:+ s2) = (String.length s1 + String.length s2)%nat.
Proof. induction s1 as [|a s1 IH]; simpl; [done|]. by rewrite IH. Qed.

Lemma string_app_last_inj (s1 s2 : string) (a b : ascii) :
  String.length s1 = String.length s2 →
  s1 +:+ String a EmptyString = s2 +:+ String b EmptyString →
  s1 = s2 ∧ a = b.
Proof.
  revert s2. induction s1 as [|c1 s1 IH]; intros [|c2 s2]; simpl; try done.
  - by intros _ [= ->].
  - intros [= Hlen] [= -> Heq]. destruct (IH s2 Hlen Heq) as [-> ->]. done.
Qed.

Lemma hex_length (width : nat) (n : N) : String.length (model.hex width n) = width.
Proof.
  revert n. induction width as [|width IH]; intros n; simpl; [done|].
  rewrite string_length_app, IH. simpl. lia.
Qed.

Lemma hex_digit_inj (a b : N) :
  a < 16 → b < 16 → model.hex_digit a = model.hex_digit b → a = b.
Proof.
  intros Ha Hb. unfold model.hex_digit.
  assert (Hna : (N.to_nat a < 16)%nat) by lia.
  assert (Hnb : (N.to_nat b < 16)%nat) by lia.
  intros Heq. apply N2Nat.inj.
  revert Hna Hnb Heq. generalize (N.to_nat a) (N.to_nat b). intros x y Hx Hy.
  do 16 (destruct x as [|x]; [do 16 (destruct y as [|y]; [done|]); lia|]). lia.
Qed.

Lemma hex_inj (width : nat) (n n' : N) :
  model.hex width n = model.hex width n' →
  n mod 16 ^ N.of_nat width = n' mod 16 ^ N.of_nat width.
Proof.
  revert n n'. induction width as [|width IH]; intros n n'; simpl model.hex.
  - intros _. by rewrite !N.mod_1_r.
  - intros Heq.
    apply string_app_last_inj in Heq as [Hhigh Hlow]; [|by rewrite !hex_length].
    apply IH in Hhigh.
    apply hex_digit_inj in Hlow; [|by apply N.mod_lt..].
    rewrite Nat2N.inj_succ, N.pow_succ_r', !N.Div0.mod_mul_r. by rewrite Hhigh, Hlow.
Qed.

Lemma Fingerprint_String_inj (f g : Fingerprint) :
  f < 2 ^ 64 → g < 2 ^ 64 →
  model.Fingerprint_String f = model.Fingerprint_String g → f = g.
Proof.
  intros Hf Hg Heq.
  apply hex_inj in Heq. change (16 ^ N.of_nat 16) with (2 ^ 64) in Heq.
  by rewrite !N.mod_small in Heq.
Qed.

(** X10. The [alert] column is a key: [Fingerprint.String] always has 16
    characters, and two fingerprints (64-bit values) with the same string are
    the same fingerprint. *)
Theorem Fingerprint_String_key (f g : Fingerprint) :
  String.length (model.Fingerprint_String f) = 16%nat ∧
  (f < 2 ^ 64 → g < 2 ^ 64 →
   model.Fingerprint_String f = model.Fingerprint_String g → f = g).
Proof. split; [apply hex_length|apply Fingerprint_String_inj]. Qed.

Lemma Fingerprint_String_key_witness : 18446744073709551615 = 18446744073709551615.
Proof.
  apply (Fingerprint_String_key 18446744073709551615 18446744073709551615).
  - reflexivity.
  - reflexivity.
  - reflexivity.
Defined.
End fingerprint_key.

(** * [slices.Equal] *)

(** X11. [slices.Equal] holds exactly for equal lists: it is symmetric, fails
    whenever the lengths differ, and a nil slice equals an empty one (both
    are the empty list here). *)
Theorem slices_Equal_spec (s1 s2 : list string) :
  (slices.Equal s1 s2 = true ↔ s1 = s2) ∧
  slices.Equal s1 s2 = slices.Equal s2 s1 ∧
  (length s1 ≠ length s2 → slices.Equal s1 s2 = false).
Proof.
  split; [apply slices_Equal_true|]. split.
  - destruct (slices.Equal s1 s2) eqn:H12, (slices.Equal s2 s1) eqn:H21; try done.
    + apply slices_Equal_true in H12 as ->. by rewrite slices_Equal_refl in H21.
    + apply slices_Equal_true in H21 as ->. by rewrite slices_Equal_refl in H12.
  - intros Hlen. apply slices_Equal_false. by intros ->.
Qed.

Lemma slices_Equal_spec_witness : slices.Equal ["a2"] ["a2"; "a3"] = false.
Proof. apply (slices_Equal_spec ["a2"] ["a2"; "a3"]). simpl. lia. Defined.

(** * Flushing and closing *)

Section flush_close.
Import StateAwareMarker.
Context {M : Type} `{!AlertMarker.t M}.

(** X12. [Flush] through the decorator leaves the marker and the log alone
    and fails exactly when the store's flush fails; the error it returns is
    the store's, with the message put after "failed to flush duckdb state
    appender: ". [Close] returns the store's error as it is. *)
Theorem Flush_Close_errors (w : World) (s : StateAwareMarker.t M DuckDBStateAppender.t) :
  marker (@Flush M _ (DuckDBStateAppender.appender w) s).1 = marker s ∧
  DuckDBStateAppender.l (appender (@Flush M _ (DuckDBStateAppender.appender w) s).1)
    = DuckDBStateAppender.l (appender s) ∧
  (@Flush M _ (DuckDBStateAppender.appender w) s).2
    = match Flush_error w with
      | Some (errorString msg) =>
          Some (errorString ("failed to flush duckdb state appender: " +:+ msg))
      | None => None
      end ∧
  (DuckDBStateAppender.Close w (appender s)).2 = Close_error w.
Proof.
  unfold Flush. simpl. unfold DuckDBStateAppender.Flush, DuckDBStateAppender.Close,
    duckdb.Flush, duckdb.Close.
  destruct (Flush_error w) as [[msg]|], (Close_error w); done.
Qed.
End flush_close.

(** * The last event of an alert and its status *)

Section last_event.
Import StateAwareMarker.

Lemma trace_last_inv strict fp ops (m : MemMarker.t) last0 :
  last_event_inv strict last0 (MemMarker.alerts m !! fp) →
  (strict = true → OpSetInhibited fp [] ∉ ops) →
  last_event_inv strict
    (match last (for_fingerprint fp (trace m ops)) with Some e => Some e | None => last0 end)
    (MemMarker.alerts (fold_left next ops m) !! fp).
Proof.
  revert m last0. induction ops as [|op ops IH]; intros m last0 Hinv Hstrict; [done|].
  simpl. unfold for_fingerprint in *. rewrite filter_app.
  fold (for_fingerprint fp (emit m op)). rewrite for_fingerprint_emit, last_app.
  assert (Hops : strict = true → OpSetInhibited fp [] ∉ ops).
  { intros Hs Hin. apply (Hstrict Hs). by right. }
  destruct (decide (Op_fingerprint op = fp)) as [<-|Hne].
  - pose proof (step_inv strict m op last0 Hinv) as Hstep.
    destruct (emit m op) as [|e [|]].
    + specialize (IH (next m op) last0). simpl.
      destruct (last (filter _ (trace (next m op) ops))); apply IH; try done;
        apply Hstep; intros Hs Heq; apply (Hstrict Hs); rewrite <- Heq; by left.
    + destruct Hstep as [_ Hnext]. { intros Hs Heq. apply (Hstrict Hs). rewrite <- Heq. by left. }
      specialize (IH (next m op) (Some e) Hnext Hops). simpl.
      by destruct (last (filter _ (trace (next m op) ops))).
    + destruct Hstep. intros Hs Heq. apply (Hstrict Hs). rewrite <- Heq. by left.
  - specialize (IH (next m op) last0). rewrite next_other in IH by done. simpl.
    specialize (IH Hinv Hops).
    by destruct (last (filter _ (trace (next m op) ops))).
Qed.

(** X13. After any run on a fresh decorator, the last event sent for a
    fingerprint tells the status the authority holds for it: with no event
    or a last event [Deleted] the alert is unknown ([Unprocessed]); after
    [Active] it is active; after [Suppressed] it is suppressed by a silence
    and not inhibited; after an inhibited event it is active or suppressed,
    and inhibited by exactly the recorded list if the run has no
    [SetInhibited] call without inhibitors for it. *)
Theorem last_event_tells_status (ops : list Op) (fp : Fingerprint) :
  match last (for_fingerprint fp (emitted ops)) with
  | None | Some (CallAppend _ AlertStateDeleted) =>
      State (MemMarker.Status (fold_left next ops MemMarker.NewMarker) fp)
        = AlertStateUnprocessed
  | Some (CallAppend _ AlertStateUnprocessed) => False
  | Some (CallAppend _ AlertStateActive) =>
      State (MemMarker.Status (fold_left next ops MemMarker.NewMarker) fp)
        = AlertStateActive
  | Some (CallAppend _ AlertStateSuppressed) =>
      State (MemMarker.Status (fold_left next ops MemMarker.NewMarker) fp)
        = AlertStateSuppressed ∧
      (MemMarker.Silenced (fold_left next ops MemMarker.NewMarker) fp).2 = true ∧
      (MemMarker.Inhibited (fold_left next ops MemMarker.NewMarker) fp).2 = false
  | Some (CallAppendInhibited _ inhibitedBy) =>
      (State (MemMarker.Status (fold_left next ops MemMarker.NewMarker) fp)
         = AlertStateActive ∨
       State (MemMarker.Status (fold_left next ops MemMarker.NewMarker) fp)
         = AlertStateSuppressed) ∧
      (OpSetInhibited fp [] ∉ ops →
       MemMarker.Inhibited (fold_left next ops MemMarker.NewMarker) fp
         = (inhibitedBy, true))
  end.
Proof.
  rewrite emitted_trace.
  pose proof (trace_last_inv false fp ops MemMarker.NewMarker None) as Hany.
  pose proof (trace_last_inv true fp ops MemMarker.NewMarker None) as Hstrict.
  simpl in Hany, Hstrict. rewrite lookup_empty in Hany, Hstrict.
  specialize (Hany eq_refl ltac:(done)). specialize (Hstrict eq_refl).
  unfold MemMarker.Silenced, MemMarker.Inhibited, MemMarker.Status.
  destruct (last (for_fingerprint fp (trace MemMarker.NewMarker ops))) as [[? st|? inhibitedBy]|];
    simpl in *.
  - destruct st; try done.
    + destruct Hany as (s & -> & Hst & Hsil & Hinh). done.
    + destruct Hany as (s & -> & Hst & Hsil & Hinh). simpl. rewrite Hst, Hinh.
      destruct (SilencedBy s); done.
    + by rewrite Hany.
  - destruct Hany as (s & Hs & Hst & _). rewrite Hs. simpl. split.
    + rewrite Hst. destruct (_ && _); auto.
    + intros Hops. destruct (Hstrict (λ _, Hops)) as (s' & Hs' & _ & Hby).
      rewrite Hs in Hs'. injection Hs' as <-.
      destruct (Hby eq_refl) as [<- Hne]. rewrite Hst.
      destruct (InhibitedBy s); [done|]. simpl. by rewrite andb_false_r.
  - by rewrite Hany.
Qed.
End last_event.

Lemma rows_follow_events_witness :
  payload <$>
    drop (length (DuckDBSession.rows (StateAwareMarker.appender quiet_system)))
      (DuckDBSession.rows
         (StateAwareMarker.appender
            (run quiet_system
               [OpSetActiveOrSilenced 1 1 ["1"] []; OpSetInhibited 1 ["a2"; "a3"];
                OpDelete 1]).1))
  = call_payload <$>
      trace (StateAwareMarker.marker quiet_system)
        [OpSetActiveOrSilenced 1 1 ["1"] []; OpSetInhibited 1 ["a2"; "a3"]; OpDelete 1].
Proof.
  apply (rows_follow_events quiet_system
           [OpSetActiveOrSilenced 1 1 ["1"] []; OpSetInhibited 1 ["a2"; "a3"]; OpDelete 1]).
  - intros n row. reflexivity.
  - vm_compute. reflexivity.
Defined.

Example rows_of_a_run :
  payload <$>
    DuckDBSession.rows
      (StateAwareMarker.appender
         (run quiet_system
            [OpSetActiveOrSilenced 1 1 ["1"] []; OpSetInhibited 1 ["a2"; "a3"]; OpDelete 1]).1)
  = [("0000000000000001", "suppressed", None, Some "silenced");
     ("0000000000000001", "suppressed", Some "a2", Some "inhibited");
     ("0000000000000001", "deleted", None, None)].
Proof. vm_compute. reflexivity. Qed.

(** * The rows of an alert, end to end *)

Section rows_of_an_alert.
Import DuckDBSession.
Import StateAwareMarker.
Local Open Scope N_scope.

Lemma written_payload (c : Call) :
  (∀ fp, c ≠ CallAppendInhibited fp []) → payload <$> written c = [call_payload c].
Proof.
  intros Hc. destruct c as [fp st|fp [|first rest]]; [| by destruct (Hc fp) |].
  - unfold written. simpl. rewrite Append_unfold. simpl. by case_bool_decide.
  - reflexivity.
Qed.

Lemma bind_written (calls : list Call) :
  Forall sendable calls →
  calls ≫= (λ c, payload <$> written c) = call_payload <$> calls.
Proof.
  induction 1 as [|c calls [_ Hc] _ IH]; [done|].
  rewrite bind_cons, fmap_cons, IH, written_payload by done. done.
Qed.

Lemma rows_of_payload (fp : Fingerprint) (new : list Row) (calls : list Call) :
  fp < 2 ^ 64 →
  Forall sendable calls →
  payload <$> new = call_payload <$> calls →
  payload <$> rows_of fp new = call_payload <$> for_fingerprint fp calls.
Proof.
  intros Hfp Hcalls. revert new.
  induction Hcalls as [|c calls [Hc _] _ IH]; intros [|r new]; try done.
  rewrite !fmap_cons. intros [= Hr Hnew]. specialize (IH new Hnew).
  unfold rows_of, for_fingerprint in *. rewrite !filter_cons.
  assert (Halert : alert_states.alert r = model.Fingerprint_String (Call_fingerprint c)).
  { unfold payload in Hr. destruct c; simpl in *; congruence. }
  destruct (decide (Call_fingerprint c = fp)) as [Heq|Hne].
  - rewrite decide_True by (by rewrite Halert, Heq). by rewrite !fmap_cons, Hr, IH.
  - rewrite decide_False; [done|]. rewrite Halert. intros Hs. apply Hne.
    by apply (Fingerprint_String_inj (Call_fingerprint c) fp).
Qed.

Lemma AlertState_String_inj (state1 state2 : AlertState) :
  AlertState_String state1 = AlertState_String state2 → state1 = state2.
Proof. by destruct state1, state2. Qed.

Lemma same_plain_state_Append (r1 r2 : Row) (c1 c2 : Call) :
  payload r1 = call_payload c1 → payload r2 = call_payload c2 →
  (∀ fp, c1 ≠ CallAppendInhibited fp []) → (∀ fp, c2 ≠ CallAppendInhibited fp []) →
  same_Append c1 c2 = false → same_plain_state r1 r2 = false.
Proof.
  unfold payload, same_plain_state. intros H1 H2 Hc1 Hc2.
  destruct c1 as [fp1 st1|fp1 [|? ?]], c2 as [fp2 st2|fp2 [|? ?]]; simpl in *;
    try (by destruct (Hc1 fp1)); try (by destruct (Hc2 fp2));
    injection H1 as _ Hs1 Hb1 _; injection H2 as _ Hs2 Hb2 _;
    rewrite Hs1, Hs2, Hb1, Hb2; simpl; try done.
  intros Hst. apply bool_decide_eq_false in Hst. apply bool_decide_eq_false.
  intros Heq. by apply Hst, AlertState_String_inj.
Qed.

Lemma no_adjacent_rows (rows : list Row) (calls : list Call) :
  Forall (λ c, ∀ fp, c ≠ CallAppendInhibited fp []) calls →
  payload <$> rows = call_payload <$> calls →
  no_adjacent same_Append calls = true →
  no_adjacent same_plain_state rows = true.
Proof.
  intros Hcalls. revert rows.
  induction Hcalls as [|c1 calls Hc1 Hcalls IH]; intros [|r1 rows]; try done.
  rewrite !fmap_cons. intros [= Hr1 Hrows].
  destruct Hcalls as [|c2 calls Hc2 Hcalls]; destruct rows as [|r2 rows]; try done.
  change (no_adjacent same_Append (c1 :: c2 :: calls))
    with (negb (same_Append c1 c2) && no_adjacent same_Append (c2 :: calls)).
  change (no_adjacent same_plain_state (r1 :: r2 :: rows))
    with (negb (same_plain_state r1 r2) && no_adjacent same_plain_state (r2 :: rows)).
  rewrite !andb_true_iff, !negb_true_iff. intros [Hsame Hrest].
  split.
  - rewrite !fmap_cons in Hrows. injection Hrows as Hr2 _.
    by apply (same_plain_state_Append r1 r2 c1 c2).
  - by apply IH.
Qed.

Lemma trace_sendable (m : MemMarker.t) (ops : list Op) :
  Forall (λ op, Op_fingerprint op < 2 ^ 64) ops → Forall sendable (trace m ops).
Proof.
  intros Hops. revert m. induction Hops as [|op ops Hop _ IH]; intros m; simpl; [done|].
  apply Forall_app. split; [|apply IH].
  apply Forall_forall. intros c Hc. split.
  - by rewrite (emit_fingerprint m op c Hc).
  - intros fp ->. apply (trace_inhibited_nonempty m [op] fp). simpl.
    by rewrite app_nil_r.
Qed.

(** X14. When neither identifiers nor writes fail, the rows a run on a
    fresh decorator adds for a fingerprint never hold, one right after the
    other, two rows that record the same state without an inhibitor: no
    active after active, no silenced after silenced, no deleted after
    deleted. (Fingerprints are 64-bit values.) *)
Theorem persisted_states_alternate (a : DuckDBSession.t) (ops : list Op) (fp : Fingerprint) :
  fp < 2 ^ 64 →
  Forall (λ op, Op_fingerprint op < 2 ^ 64) ops →
  (∀ n, (uuid_NewV7 (worlds a n)).2 = None) →
  (∀ n row, AppendRow_error (worlds a n) row = None) →
  no_adjacent same_plain_state
    (rows_of fp
       (drop (length (rows a))
          (rows (appender (run (NewStateAwareMarker MemMarker.NewMarker a) ops).1))))
    = true.
Proof.
  intros Hfp Hops Hid Hstore.
  destruct (run_replay (NewStateAwareMarker MemMarker.NewMarker a) ops) as [Hreplay _].
  simpl in Hreplay.
  pose proof (deliver_all_returns a (trace MemMarker.NewMarker ops) Hid
                (trace_inhibited_nonempty MemMarker.NewMarker ops)) as Hret.
  destruct (deliver_all_payload a (trace MemMarker.NewMarker ops) Hstore Hret)
    as (new & Hnew & _ & Hpayload).
  rewrite <- Hreplay in Hnew. simpl in Hnew. rewrite Hnew, drop_app_length.
  pose proof (trace_sendable MemMarker.NewMarker ops Hops) as Hsend.
  rewrite bind_written in Hpayload by done.
  apply (no_adjacent_rows _ (for_fingerprint fp (trace MemMarker.NewMarker ops))).
  - apply Forall_forall. intros c Hc. apply list_elem_of_filter in Hc as [_ Hc].
    rewrite Forall_forall in Hsend. by destruct (Hsend c Hc).
  - by apply rows_of_payload.
  - apply (trace_no_adjacent false fp ops MemMarker.NewMarker None); [|done].
    simpl. apply lookup_empty.
Qed.

Lemma persisted_states_alternate_witness :
  no_adjacent same_plain_state
    (rows_of 1
       (drop (length (rows (appender quiet_system)))
          (rows (appender
                   (run (NewStateAwareMarker MemMarker.NewMarker (appender quiet_system))
                      [OpSetActiveOrSilenced 1 1 [] []; OpSetActiveOrSilenced 2 1 [] [];
                       OpSetActiveOrSilenced 1 1 [] []; OpDelete 1; OpDelete 1]).1))))
    = true.
Proof.
  apply (persisted_states_alternate (appender quiet_system)
           [OpSetActiveOrSilenced 1 1 [] []; OpSetActiveOrSilenced 2 1 [] [];
            OpSetActiveOrSilenced 1 1 [] []; OpDelete 1; OpDelete 1] 1).
  - reflexivity.
  - repeat constructor.
  - intros n. reflexivity.
  - intros n row. reflexivity.
Defined.
End rows_of_an_alert.
